(** * jeu_automatique: a number-guessing simulator

    Shallow embedding of [jeu_automatique.py].  The script has two routines,
    [devine_le_nombre_auto] (five rounds of midpoint search against a secret
    drawn by [random.randint(1, 10)]) and [jeu_demo_simple] (one secret and
    three random guesses), run one after the other by the [__main__] block.

    Effects are threaded explicitly: the world holds the random integer
    generator (an oracle answering the successive [randint] calls), the number
    of calls served so far, and everything written to standard output, one
    entry per [print] call.  The [while] loop is run with fuel; running out of
    fuel is the [None] outcome, and the theorems show it never happens with
    fuel 5 or more. *)

From Stdlib Require Import ZArith List String Ascii Bool Lia QArith.
From Stdlib Require Import PrimFloat FloatOps SpecFloat Uint63.
From Stdlib Require Import DecimalString.
Import ListNotations.

Local Open Scope string_scope.
Local Open Scope Z_scope.

(** ** The world: random source and console *)

Record World : Type := mkWorld {
  rng : nat -> Z -> Z -> Z;   (* answer of the i-th randint call, given its bounds *)
  rng_pos : nat;              (* number of randint calls served so far *)
  stdout : list string        (* text written by each print call, oldest first *)
}.

(** [random.randint(a, b)] returns an integer N with a <= N <= b. *)
Definition valid_rng (r : nat -> Z -> Z -> Z) : Prop :=
  forall i a b, a <= b -> a <= r i a b <= b.

Definition M (A : Type) : Type := World -> option (A * World).

Definition ret {A : Type} (a : A) : M A := fun w => Some (a, w).

Definition bind {A B : Type} (m : M A) (k : A -> M B) : M B :=
  fun w => match m w with
           | Some (a, w') => k a w'
           | None => None
           end.

Definition diverge {A : Type} : M A := fun _ => None.

Notation "x <- m ;; k" := (bind m (fun x => k))
  (at level 61, m at next level, right associativity).
Notation "m ;; k" := (bind m (fun _ => k))
  (at level 61, right associativity).

(** ** Builtins *)

Definition nl : string := String "010"%char "".

(** [str(n)] for an integer. *)
Definition str (z : Z) : string := NilZero.string_of_int (Z.to_int z).

(** [s * n] for a string [s]. *)
Fixpoint repeat_str (s : string) (n : nat) : string :=
  match n with
  | O => ""
  | S n' => s ++ repeat_str s n'
  end.

(** [print(s, end=e)]. *)
Definition print_end (s e : string) : M unit :=
  fun w => Some (tt, mkWorld (rng w) (rng_pos w) (stdout w ++ [(s ++ e)%string])%list).

(** [print(s)]. *)
Definition print (s : string) : M unit := print_end s nl.

(** [random.randint(a, b)]. *)
Definition randint (a b : Z) : M Z :=
  fun w => Some (rng w (rng_pos w) a b,
                 mkWorld (rng w) (S (rng_pos w)) (stdout w)).

(** [range(a, b)]. *)
Definition range (a b : Z) : list Z :=
  map (fun k => a + Z.of_nat k) (seq 0 (Z.to_nat (b - a))).

(** [enumerate(xs, start)]. *)
Fixpoint enumerate {A : Type} (xs : list A) (start : Z) : list (Z * A) :=
  match xs with
  | [] => []
  | x :: xs' => (start, x) :: enumerate xs' (start + 1)
  end.

(** [while cond(s): s = body(s)]. *)
Fixpoint while_ {S : Type} (fuel : nat) (cond : S -> bool) (body : S -> M S)
  (s : S) : M S :=
  if cond s then
    match fuel with
    | O => diverge
    | Datatypes.S fuel' => s' <- body s ;; while_ fuel' cond body s'
    end
  else ret s.

(** [for x in xs: s = body(x, s)]. *)
Fixpoint for_ {A S : Type} (xs : list A) (body : A -> S -> M S) (s : S) : M S :=
  match xs with
  | [] => ret s
  | x :: xs' => s' <- body x s ;; for_ xs' body s'
  end.

(** [for x in xs: body(x) else: orelse]; the body answers [true] on [break]. *)
Fixpoint for_else {A : Type} (xs : list A) (body : A -> M bool)
  (orelse : M unit) : M unit :=
  match xs with
  | [] => orelse
  | x :: xs' => stop <- body x ;; if stop then ret tt else for_else xs' body orelse
  end.

(** [[m for _ in range(n)]]. *)
Fixpoint list_comp {A : Type} (n : nat) (m : M A) : M (list A) :=
  match n with
  | O => ret []
  | S n' => x <- m ;; xs <- list_comp n' m ;; ret (x :: xs)
  end.

(** ** Floats and the [.1f] format *)

(** An [int] operand of [/] or [*] next to a float. *)
Definition float_of_Z (z : Z) : float := PrimFloat.of_uint63 (Uint63.of_Z z).

(** Nearest integer to [num / den] ([den > 0]), ties to even. *)
Definition round_half_even (num den : Z) : Z :=
  let q := num / den in
  let r := num mod den in
  if 2 * r <? den then q
  else if den <? 2 * r then q + 1
  else if Z.even q then q else q + 1.

Definition sign_str (s : bool) : string := if s then "-" else "".

(** Tenths [n >= 0] printed with one digit after the point. *)
Definition tenths_str (n : Z) : string := str (n / 10) ++ "." ++ str (n mod 10).

(** [f"{x:.1f}"]: the exact binary value of [x], correctly rounded to one
    decimal digit. *)
Definition format_1f (x : float) : string :=
  match Prim2SF x with
  | S754_zero s => sign_str s ++ "0.0"
  | S754_infinity s => sign_str s ++ "inf"
  | S754_nan => "nan"
  | S754_finite s m e =>
      let n := if 0 <=? e then 10 * Z.pos m * 2 ^ e
               else round_half_even (10 * Z.pos m) (2 ^ (- e)) in
      sign_str s ++ tenths_str n
  end.

(** ** devine_le_nombre_auto *)

(** Locals that the [while] loop of a round reads and writes. *)
Record Etat : Type := mkEtat {
  min_val : Z;
  max_val : Z;
  tentatives : Z;
  trouve : bool;
  parties_gagnees : Z
}.

(** [not trouve and tentatives < 5]. *)
Definition continuer (e : Etat) : bool :=
  negb (trouve e) && (tentatives e <? 5).

(** One pass through the body of the [while] loop. *)
Definition iteration (nombre_secret : Z) (e : Etat) : M Etat :=
  let devine := (min_val e + max_val e) / 2 in
  let tentatives' := tentatives e + 1 in
  print_end ("  Tentative " ++ str tentatives' ++ ": " ++ str devine) "" ;;
  if devine <? nombre_secret then
    print " → Trop petit!" ;;
    ret (mkEtat (devine + 1) (max_val e) tentatives' (trouve e) (parties_gagnees e))
  else if devine >? nombre_secret then
    print " → Trop grand!" ;;
    ret (mkEtat (min_val e) (devine - 1) tentatives' (trouve e) (parties_gagnees e))
  else
    print " → 🎉 Trouvé!" ;;
    ret (mkEtat (min_val e) (max_val e) tentatives' true (parties_gagnees e + 1)).

(** State of a round when its [while] loop is entered. *)
Definition etat_initial (gagnees : Z) : Etat := mkEtat 1 10 0 false gagnees.

(** The [while] loop of a round. *)
Definition recherche (fuel : nat) (nombre_secret : Z) (gagnees : Z) : M Etat :=
  while_ fuel continuer (iteration nombre_secret) (etat_initial gagnees).

(** Body of [for partie in range(1, 6)], on the accumulators
    [(total_tentatives, parties_gagnees)]. *)
Definition partie_body (fuel : nat) (partie : Z) (acc : Z * Z) : M (Z * Z) :=
  let '(total_tentatives, gagnees) := acc in
  print (nl ++ "🎯 Partie " ++ str partie ++ ":") ;;
  nombre_secret <- randint 1 10 ;;
  print ("Nombre secret généré: " ++ str nombre_secret) ;;
  e <- recherche fuel nombre_secret gagnees ;;
  (if negb (trouve e) then
     print ("  ❌ Échec après " ++ str (tentatives e) ++ " tentatives. Le nombre était "
            ++ str nombre_secret)
   else
     print ("  ✅ Succès en " ++ str (tentatives e) ++ " tentatives!")) ;;
  ret (total_tentatives + tentatives e, parties_gagnees e).

(** Header and the five rounds; answers [(total_tentatives, parties_gagnees)]. *)
Definition parties (fuel : nat) : M (Z * Z) :=
  print "🎮 Jeu de Devinette Automatique - Simulation de 5 parties" ;;
  print (repeat_str "=" 50) ;;
  for_ (range 1 6) (partie_body fuel) (0, 0).

Definition taux_str (gagnees : Z) : string :=
  format_1f (PrimFloat.mul (PrimFloat.div (float_of_Z gagnees) (float_of_Z 5))
                           (float_of_Z 100)).

Definition moyenne_str (total_tentatives : Z) : string :=
  format_1f (PrimFloat.div (float_of_Z total_tentatives) (float_of_Z 5)).

(** The final statistics. *)
Definition statistiques (total_tentatives gagnees : Z) : M unit :=
  print (nl ++ repeat_str "=" 50) ;;
  print "📊 Statistiques de la simulation:" ;;
  print "Parties jouées: 5" ;;
  print ("Parties gagnées: " ++ str gagnees) ;;
  print ("Taux de réussite: " ++ taux_str gagnees ++ "%") ;;
  print ("Moyenne de tentatives: " ++ moyenne_str total_tentatives) ;;
  print (nl ++ "🤖 Simulation terminée avec succès!").

Definition devine_le_nombre_auto (fuel : nat) : M unit :=
  acc <- parties fuel ;;
  statistiques (fst acc) (snd acc).

(** ** jeu_demo_simple *)

(** Body of the [for] loop over the enumerated guesses; [true] is [break]. *)
Definition demo_body (nombre_secret : Z) (it : Z * Z) : M bool :=
  let '(i, tentative) := it in
  print_end ("Tentative " ++ str i ++ ": " ++ str tentative) "" ;;
  if tentative =? nombre_secret then
    print " → 🎉 Gagné!" ;; ret true
  else if tentative <? nombre_secret then
    print " → Plus grand" ;; ret false
  else
    print " → Plus petit" ;; ret false.

(** The [else] clause of the [for] loop. *)
Definition reveal (nombre_secret : Z) : M unit :=
  print (nl ++ "Le nombre était " ++ str nombre_secret).

Definition jeu_demo_simple : M unit :=
  print "🎲 Démonstration rapide du jeu de devinette" ;;
  nombre_secret <- randint 1 10 ;;
  print ("Nombre secret: " ++ str nombre_secret) ;;
  guesses <- list_comp 3 (randint 1 10) ;;
  for_else (enumerate guesses 1) (demo_body nombre_secret) (reveal nombre_secret).

(** ** The [__main__] block *)

Definition main (fuel : nat) : M unit :=
  devine_le_nombre_auto fuel ;;
  print (nl ++ repeat_str "-" 30) ;;
  jeu_demo_simple.

(** Running a computation from an empty console. *)
Definition monde (r : nat -> Z -> Z -> Z) : World := mkWorld r 0 [].

Definition sortie {A : Type} (m : M A) (r : nat -> Z -> Z -> Z) : option (list string) :=
  match m (monde r) with
  | Some (_, w) => Some (stdout w)
  | None => None
  end.

(** [s.startswith(p)]. *)
Fixpoint commence_par (p s : string) {struct p} : bool :=
  match p with
  | EmptyString => true
  | String a p' =>
      match s with
      | EmptyString => false
      | String b s' => Ascii.eqb a b && commence_par p' s'
      end
  end.

(** A chunk of output that is the failure message of a round. *)
Definition est_echec (c : string) : bool := commence_par "  ❌ Échec" c.

(** ** The round as the specification describes it

    A search interval [[lo, hi]], an attempt counter and a found flag; one
    step computes the midpoint, counts the attempt and narrows the interval
    or marks the round found.  Steps are taken until the round is found or
    the counter reaches 5. *)

Record SpecRound : Type := mkSpecRound {
  lo : Z;
  hi : Z;
  attempts : Z;
  found : bool
}.

Definition spec_start : SpecRound := mkSpecRound 1 10 0 false.

Definition spec_stopped (x : SpecRound) : Prop :=
  found x = true \/ attempts x = 5.

Inductive spec_step (secret : Z) : SpecRound -> SpecRound -> Prop :=
| step_too_small : forall x,
    (lo x + hi x) / 2 < secret ->
    spec_step secret x
      (mkSpecRound ((lo x + hi x) / 2 + 1) (hi x) (attempts x + 1) (found x))
| step_too_big : forall x,
    (lo x + hi x) / 2 > secret ->
    spec_step secret x
      (mkSpecRound (lo x) ((lo x + hi x) / 2 - 1) (attempts x + 1) (found x))
| step_found : forall x,
    (lo x + hi x) / 2 = secret ->
    spec_step secret x
      (mkSpecRound (lo x) (hi x) (attempts x + 1) true).

Inductive spec_run (secret : Z) : SpecRound -> SpecRound -> Prop :=
| run_start : forall x, spec_run secret x x
| run_more : forall x y z,
    spec_run secret x y -> ~ spec_stopped y -> spec_step secret y z ->
    spec_run secret x z.

(** The round that the locals of the [while] loop stand for. *)
Definition vue (e : Etat) : SpecRound :=
  mkSpecRound (min_val e) (max_val e) (tentatives e) (trouve e).

(** States the [while] loop of a round goes through. *)
Inductive atteint (nombre_secret : Z) : Etat -> Prop :=
| atteint_initial : forall gagnees, atteint nombre_secret (etat_initial gagnees)
| atteint_iteration : forall e e' w w',
    atteint nombre_secret e ->
    continuer e = true ->
    iteration nombre_secret e w = Some (e', w') ->
    atteint nombre_secret e'.

(** ** The report as the specification describes it: exact quotients, rounded
    to one decimal place. *)

Definition spec_one_decimal (q : Q) : string :=
  let n := round_half_even (10 * Z.abs (Qnum q)) (Z.pos (Qden q)) in
  sign_str (Qnum q <? 0) ++ tenths_str n.

Definition spec_win_rate (rounds_won : Z) : Q :=
  (inject_Z rounds_won / inject_Z 5) * inject_Z 100.

Definition spec_mean_attempts (total_attempts : Z) : Q :=
  inject_Z total_attempts / inject_Z 5.

(** ** Vocabulary of the proofs *)

Definition sans_echec (l : list string) : Prop :=
  Forall (fun c => est_echec c = false) l.

(** The text of an attempt, before its verdict. *)
Definition annonce (n devine : Z) : string :=
  "  Tentative " ++ str n ++ ": " ++ str devine.

Definition milieu (e : Etat) : Z := (min_val e + max_val e) / 2.

Definition apres (w : World) (l : list string) : World :=
  mkWorld (rng w) (rng_pos w) (stdout w ++ l).

(** Interval kept around the secret, and its width after each attempt. *)
Definition encadre (s : Z) (e : Etat) : Prop :=
  min_val e <= s <= max_val e /\
  (trouve e = false ->
     tentatives e = 0 /\ max_val e - min_val e <= 9 \/
     tentatives e = 1 /\ max_val e - min_val e <= 4 \/
     tentatives e = 2 /\ max_val e - min_val e <= 1 \/
     tentatives e = 3 /\ max_val e - min_val e <= 0) /\
  (trouve e = true -> 1 <= tentatives e <= 4).

(** What a computation does to the world: [n] random integers drawn, the
    chunks [l] printed. *)
Definition avance (w : World) (n : nat) (l : list string) : World :=
  mkWorld (rng w) (rng_pos w + n) (stdout w ++ l).

Definition ligne_taux (s : string) : string :=
  ("Taux de réussite: " ++ s ++ "%") ++ nl.

Definition ligne_moyenne (s : string) : string :=
  ("Moyenne de tentatives: " ++ s) ++ nl.

(** The seven lines of the report, given the two formatted numbers. *)
Definition rapport (gagnees : Z) (taux moyenne : string) : list string :=
  [(nl ++ repeat_str "=" 50) ++ nl;
   "📊 Statistiques de la simulation:" ++ nl;
   "Parties jouées: 5" ++ nl;
   ("Parties gagnées: " ++ str gagnees) ++ nl;
   ligne_taux taux;
   ligne_moyenne moyenne;
   (nl ++ "🤖 Simulation terminée avec succès!") ++ nl]%string.

Definition demo_entete (s : Z) : list string :=
  ["🎲 Démonstration rapide du jeu de devinette" ++ nl;
   ("Nombre secret: " ++ str s) ++ nl]%string.

Definition essai (i g : Z) : string := "Tentative " ++ str i ++ ": " ++ str g.

Definition gagne : string := " → 🎉 Gagné!" ++ nl.

Definition indice (s g : Z) : string :=
  if g <? s then " → Plus grand" ++ nl else " → Plus petit" ++ nl.

Definition revelation (s : Z) : string := (nl ++ "Le nombre était " ++ str s) ++ nl.

(** The secret and the three guesses that [jeu_demo_simple] draws in [w]. *)
Definition demo_secret (w : World) : Z := rng w (rng_pos w) 1 10.
Definition demo_essai (w : World) (k : nat) : Z := rng w (rng_pos w + k) 1 10.

Definition memes_tirages (r1 r2 : nat -> Z -> Z -> Z) : Prop :=
  forall i, r1 i 1 10 = r2 i 1 10.

Definition semblables (w1 w2 : World) : Prop :=
  memes_tirages (rng w1) (rng w2) /\
  rng_pos w1 = rng_pos w2 /\ stdout w1 = stdout w2.

Definition memes_issues {A : Type} (x y : option (A * World)) : Prop :=
  match x, y with
  | Some (a1, w1), Some (a2, w2) => a1 = a2 /\ semblables w1 w2
  | None, None => True
  | _, _ => False
  end.

Definition det {A : Type} (m : M A) : Prop :=
  forall w1 w2, semblables w1 w2 -> memes_issues (m w1) (m w2).

Definition est_revelation (c : string) : bool :=
  commence_par (nl ++ "Le nombre était") c.
Definition est_essai (c : string) : bool := commence_par "Tentative " c.
Definition est_gagne (c : string) : bool := String.eqb c gagne.

Definition compte (p : string -> bool) (l : list string) : nat :=
  List.length (filter p l).

(** Always the lower bound: every secret and every guess is 1. *)
Definition rng_min : nat -> Z -> Z -> Z := fun _ a _ => a.

(** Six above the lower bound, capped: 7 for [randint(1, 10)]. *)
Definition rng_sept : nat -> Z -> Z -> Z := fun _ a b => Z.min b (a + 6).

Definition trop_petit : string := " → Trop petit!" ++ nl.
Definition trop_grand : string := " → Trop grand!" ++ nl.
Definition trouve_msg : string := " → 🎉 Trouvé!" ++ nl.

(** ** Vocabulary of the further properties *)

(** The two lines that open a round. *)
Definition entete_partie (partie s : Z) : list string :=
  [(nl ++ "🎯 Partie " ++ str partie ++ ":") ++ nl;
   ("Nombre secret généré: " ++ str s) ++ nl]%string.

Definition succes_msg (n : Z) : string :=
  ("  ✅ Succès en " ++ str n ++ " tentatives!") ++ nl.

Definition echec_msg (n s : Z) : string :=
  ("  ❌ Échec après " ++ str n ++ " tentatives. Le nombre était " ++ str s) ++ nl.

(** The line that closes a round. *)
Definition bilan (e : Etat) (s : Z) : string :=
  if negb (trouve e) then echec_msg (tentatives e) s
  else succes_msg (tentatives e).

(** What the loop prints after the guess [d]. *)
Definition verdict (s d : Z) : string :=
  if d <? s then trop_petit else if d >? s then trop_grand else trouve_msg.

(** The attempts of a round as printed: guesses [ds], numbered from [i]. *)
Fixpoint journal (s i : Z) (ds : list Z) : list string :=
  match ds with
  | [] => []
  | d :: ds' => annonce i d :: verdict s d :: journal s (i + 1) ds'
  end.

Definition est_annonce (c : string) : bool := commence_par "  Tentative " c.
Definition est_succes (c : string) : bool := commence_par "  ✅ Succès" c.

(** Agreement of two worlds on the first [n] answers to [randint(1, 10)]. *)
Definition semblables_jusque (n : nat) (w1 w2 : World) : Prop :=
  rng_pos w1 = rng_pos w2 /\ stdout w1 = stdout w2 /\
  forall i, (i < n)%nat -> rng w1 i 1 10 = rng w2 i 1 10.

Definition issues_jusque {A : Type} (n k : nat) (p : nat)
  (x y : option (A * World)) : Prop :=
  match x, y with
  | Some (a1, w1), Some (a2, w2) =>
      a1 = a2 /\ semblables_jusque n w1 w2 /\ (rng_pos w1 <= p + k)%nat
  | None, None => True
  | _, _ => False
  end.

(** A computation that draws at most [k] integers, all by [randint(1, 10)],
    and whose result depends on the generator through those draws only. *)
Definition local_ (k : nat) {A : Type} (m : M A) : Prop :=
  forall n w1 w2, semblables_jusque n w1 w2 -> (rng_pos w1 + k <= n)%nat ->
    issues_jusque n k (rng_pos w1) (m w1) (m w2).

(** Seven for the first nine draws, then one. *)
Definition rng_sept_puis_un : nat -> Z -> Z -> Z :=
  fun i _ _ => if (i <? 9)%nat then 7 else 1.

(** ** Reasoning rules for the loops *)

Section Rules.

Context {S : Type}.

(** Total correctness of [while_]: an invariant and a measure that every
    pass decreases. *)
Lemma while_rule (cond : S -> bool) (body : S -> M S)
    (I : S -> World -> Prop) (mu : S -> nat) :
  (forall s w, I s w -> cond s = true ->
     exists s' w', body s w = Some (s', w') /\ I s' w' /\ (mu s' < mu s)%nat) ->
  forall fuel s w, I s w -> (mu s <= fuel)%nat ->
  exists s' w', while_ fuel cond body s w = Some (s', w')
                /\ I s' w' /\ cond s' = false.
Proof.
  intros Hbody fuel.
  induction fuel as [|fuel IH]; intros s w Hi Hmu; simpl;
    destruct (cond s) eqn:Hc; try (exists s, w; auto; fail).
  - destruct (Hbody s w Hi Hc) as (s' & w' & _ & _ & Hlt). lia.
  - destruct (Hbody s w Hi Hc) as (s' & w' & Hb & Hi' & Hlt).
    unfold bind. rewrite Hb. apply IH; [assumption | lia].
Qed.

(** [for_] with an invariant indexed by the number of passes made. *)
Lemma for_rule {A : Type} (body : A -> S -> M S)
    (I : nat -> S -> World -> Prop) :
  (forall n x s w, I n s w ->
     exists s' w', body x s w = Some (s', w') /\ I (Datatypes.S n) s' w') ->
  forall xs n s w, I n s w ->
  exists s' w', for_ xs body s w = Some (s', w') /\ I (n + List.length xs)%nat s' w'.
Proof.
  intros Hbody xs.
  induction xs as [|x xs IH]; intros n s w Hi; simpl.
  - exists s, w. rewrite Nat.add_0_r. auto.
  - destruct (Hbody n x s w Hi) as (s' & w' & Hb & Hi').
    unfold bind. rewrite Hb.
    destruct (IH _ _ _ Hi') as (s2 & w2 & Hf & Hi2).
    exists s2, w2. split; [assumption|].
    replace (n + Datatypes.S (List.length xs))%nat
      with (Datatypes.S n + List.length xs)%nat by lia.
    assumption.
Qed.

End Rules.

(** ** One pass of the search loop *)

Lemma sans_echec_app l1 l2 :
  sans_echec l1 -> sans_echec l2 -> sans_echec (l1 ++ l2).
Proof. intros H1 H2. apply Forall_app. split; assumption. Qed.

Lemma append_vide (s : string) : (s ++ "")%string = s.
Proof. induction s as [|c s IH]; simpl; [|rewrite IH]; reflexivity. Qed.

Lemma annonce_sans_echec n d : est_echec (annonce n d) = false.
Proof. reflexivity. Qed.

Lemma iteration_petit s e w :
  milieu e < s ->
  iteration s e w =
    Some (mkEtat (milieu e + 1) (max_val e) (tentatives e + 1) (trouve e)
                 (parties_gagnees e),
          apres w [annonce (tentatives e + 1) (milieu e); " → Trop petit!" ++ nl]).
Proof.
  intros H. unfold iteration, milieu in *.
  apply Z.ltb_lt in H. rewrite H.
  unfold bind, print, print_end, ret, apres; cbn [rng rng_pos stdout].
  rewrite <- app_assoc, append_vide. reflexivity.
Qed.

Lemma iteration_grand s e w :
  milieu e > s ->
  iteration s e w =
    Some (mkEtat (min_val e) (milieu e - 1) (tentatives e + 1) (trouve e)
                 (parties_gagnees e),
          apres w [annonce (tentatives e + 1) (milieu e); " → Trop grand!" ++ nl]).
Proof.
  intros H. unfold iteration, milieu in *.
  assert (Hlt : ((min_val e + max_val e) / 2 <? s) = false) by (apply Z.ltb_ge; lia).
  assert (Hgt : ((min_val e + max_val e) / 2 >? s) = true) by (apply Z.gtb_lt; lia).
  rewrite Hlt, Hgt.
  unfold bind, print, print_end, ret, apres; cbn [rng rng_pos stdout].
  rewrite <- app_assoc, append_vide. reflexivity.
Qed.

Lemma iteration_trouve s e w :
  milieu e = s ->
  iteration s e w =
    Some (mkEtat (min_val e) (max_val e) (tentatives e + 1) true
                 (parties_gagnees e + 1),
          apres w [annonce (tentatives e + 1) (milieu e); " → 🎉 Trouvé!" ++ nl]).
Proof.
  intros H. unfold iteration, milieu in *.
  assert (Hlt : ((min_val e + max_val e) / 2 <? s) = false) by (apply Z.ltb_ge; lia).
  assert (Hgt : ((min_val e + max_val e) / 2 >? s) = false).
  { rewrite Z.gtb_ltb. apply Z.ltb_ge. lia. }
  rewrite Hlt, Hgt.
  unfold bind, print, print_end, ret, apres; cbn [rng rng_pos stdout].
  rewrite <- app_assoc, append_vide. reflexivity.
Qed.

(** Every pass succeeds, leaves the random source alone, prints no failure
    message, counts one attempt and follows one step of the specification. *)
Lemma iteration_pas s e w :
  exists e' l,
    iteration s e w = Some (e', apres w l) /\ sans_echec l /\
    tentatives e' = tentatives e + 1 /\
    spec_step s (vue e) (vue e') /\
    (trouve e' = true /\ parties_gagnees e' = parties_gagnees e + 1 \/
     trouve e' = trouve e /\ parties_gagnees e' = parties_gagnees e).
Proof.
  destruct (Z.lt_trichotomy (milieu e) s) as [H | [H | H]].
  - eexists; eexists. split; [apply iteration_petit; assumption|].
    split; [repeat constructor|]. split; [reflexivity|].
    split; [apply (step_too_small s (vue e)); assumption|]. right; auto.
  - eexists; eexists. split; [apply iteration_trouve; assumption|].
    split; [repeat constructor|]. split; [reflexivity|].
    split; [apply (step_found s (vue e)); assumption|]. left; auto.
  - eexists; eexists. split; [apply iteration_grand; lia|].
    split; [repeat constructor|]. split; [reflexivity|].
    split; [apply (step_too_big s (vue e)); unfold milieu in H; simpl; lia|].
    right; auto.
Qed.

(** ** The search loop of a round *)

Lemma continuer_true e :
  continuer e = true -> trouve e = false /\ tentatives e < 5.
Proof.
  unfold continuer. intros H. apply andb_prop in H. destruct H as [H1 H2].
  apply negb_true_iff in H1. apply Z.ltb_lt in H2. auto.
Qed.

Lemma continuer_false e :
  continuer e = false -> trouve e = true \/ 5 <= tentatives e.
Proof.
  unfold continuer. intros H. apply andb_false_iff in H. destruct H as [H | H].
  - left. apply negb_false_iff. assumption.
  - right. apply Z.ltb_ge. assumption.
Qed.

Lemma atteint_encadre s e :
  1 <= s <= 10 -> atteint s e -> encadre s e.
Proof.
  intros Hs Ha. induction Ha as [g | e e' w w' Ha IH Hc Hit].
  - unfold encadre; simpl. repeat split; try lia; try discriminate.
  - destruct (continuer_true _ Hc) as [Hf Hlt].
    destruct IH as (Hin & Hw & _). specialize (Hw Hf).
    destruct (Z.lt_trichotomy (milieu e) s) as [H | [H | H]].
    + rewrite (iteration_petit s e w H) in Hit. inversion Hit; subst e'; clear Hit.
      unfold encadre, milieu in *; simpl. rewrite Hf.
      split; [Z.div_mod_to_equations; lia|]. split; [|discriminate].
      intros _. Z.div_mod_to_equations. lia.
    + rewrite (iteration_trouve s e w H) in Hit. inversion Hit; subst e'; clear Hit.
      unfold encadre; simpl.
      split; [assumption|]. split; [discriminate|]. intros _. lia.
    + rewrite (iteration_grand s e w) in Hit by lia.
      inversion Hit; subst e'; clear Hit.
      unfold encadre, milieu in *; simpl. rewrite Hf.
      split; [Z.div_mod_to_equations; lia|]. split; [|discriminate].
      intros _. Z.div_mod_to_equations. lia.
Qed.

(** With fuel for five passes the loop of a round returns, whatever the
    secret: it has left the random source alone, printed no failure message,
    made between one and five attempts, counted the round as won exactly when
    it found the secret, and it has followed the specification's steps. *)
Lemma recherche_termine fuel s g w :
  (5 <= fuel)%nat ->
  exists e l,
    recherche fuel s g w = Some (e, apres w l) /\ sans_echec l /\
    continuer e = false /\
    1 <= tentatives e <= 5 /\
    parties_gagnees e = g + (if trouve e then 1 else 0) /\
    atteint s e /\
    spec_run s spec_start (vue e).
Proof.
  intros Hfuel.
  pose (I := fun (e : Etat) (w' : World) =>
    (exists l, w' = apres w l /\ sans_echec l) /\
    0 <= tentatives e <= 5 /\
    (trouve e = true -> 1 <= tentatives e) /\
    parties_gagnees e = g + (if trouve e then 1 else 0) /\
    atteint s e /\ spec_run s spec_start (vue e)).
  destruct (while_rule continuer (iteration s) I
              (fun e => Z.to_nat (5 - tentatives e))) with
    (fuel := fuel) (s := etat_initial g) (w := w)
    as (e & w' & Hrun & Hi & Hstop).
  - intros e w1 ((l & Hw & Hl) & Ht & Hone & Hg & Ha & Hr) Hc.
    destruct (continuer_true _ Hc) as [Hf Hlt].
    destruct (iteration_pas s e w1) as (e' & l' & Hit & Hl' & Ht' & Hstep & Hwin).
    exists e', (apres w1 l'). split; [assumption|]. split; [|lia].
    unfold I. split.
    { exists (l ++ l')%list. subst w1. unfold apres; simpl.
      rewrite app_assoc. split; [reflexivity | apply sans_echec_app; assumption]. }
    split; [lia|]. split; [intros _; lia|].
    split.
    { rewrite Hf in Hg. destruct Hwin as [[Hw1 Hw2] | [Hw1 Hw2]].
      - rewrite Hw1, Hw2. lia.
      - rewrite Hw1, Hw2, Hf. lia. }
    split; [apply (atteint_iteration s e e' w1 (apres w1 l')); assumption|].
    apply (run_more s spec_start (vue e) (vue e')); try assumption.
    unfold spec_stopped; simpl. rewrite Hf. intros [Hx | Hx]; [discriminate | lia].
  - unfold I; simpl. split.
    { exists []. unfold apres. rewrite app_nil_r. destruct w; split; [reflexivity | constructor]. }
    split; [lia|]. split; [discriminate|]. split; [lia|].
    split; [constructor | constructor].
  - simpl. lia.
  - destruct Hi as ((l & Hw & Hl) & Ht & Hone & Hg & Ha & Hr).
    exists e, l. subst w'. unfold recherche.
    split; [assumption|]. split; [assumption|]. split; [assumption|].
    split; [|auto].
    destruct (continuer_false _ Hstop) as [Hf | Hf]; [specialize (Hone Hf)|]; lia.
Qed.

(** A secret in [1, 10] is found, within four attempts. *)
Lemma arret_encadre s e :
  1 <= s <= 10 -> atteint s e -> continuer e = false ->
  trouve e = true /\ 1 <= tentatives e <= 4.
Proof.
  intros Hs Ha Hstop.
  destruct (atteint_encadre s e Hs Ha) as (_ & Hopen & Hclosed).
  assert (Hf : trouve e = true).
  { destruct (continuer_false _ Hstop) as [Hf | Hf]; [assumption|].
    destruct (trouve e); [reflexivity|]. specialize (Hopen eq_refl). lia. }
  auto.
Qed.

(** ** A round, and the five rounds *)

Lemma randint_valide w a b :
  valid_rng (rng w) -> a <= b -> a <= rng w (rng_pos w) a b <= b.
Proof. intros H Hab. apply H. assumption. Qed.

Lemma avance_avance w n1 l1 n2 l2 :
  avance (avance w n1 l1) n2 l2 = avance w (n1 + n2) (l1 ++ l2).
Proof.
  unfold avance; simpl. rewrite Nat.add_assoc, app_assoc. reflexivity.
Qed.

Lemma avance_0 w : avance w 0 [] = w.
Proof.
  unfold avance. rewrite Nat.add_0_r, app_nil_r. destruct w; reflexivity.
Qed.

Lemma partie_body_termine fuel partie t g w :
  (5 <= fuel)%nat ->
  exists n k l,
    partie_body fuel partie (t, g) w = Some ((t + n, g + k), avance w 1 l) /\
    1 <= n <= 5 /\ 0 <= k <= 1 /\
    (valid_rng (rng w) -> k = 1 /\ n <= 4 /\ sans_echec l).
Proof.
  intros Hfuel. unfold partie_body.
  unfold bind at 1. unfold print at 1, print_end at 1.
  unfold bind at 1. unfold randint at 1. cbn [rng rng_pos stdout].
  unfold bind at 1. unfold print at 1, print_end at 1. cbn [rng rng_pos stdout].
  set (s := rng w (rng_pos w) 1 10).
  unfold bind at 1.
  match goal with |- context [recherche fuel s g ?W] => set (w1 := W) end.
  destruct (recherche_termine fuel s g w1 Hfuel)
    as (e & l & Hrun & Hl & Hstop & Ht & Hg & Ha & _).
  rewrite Hrun.
  assert (Hv : valid_rng (rng w) -> trouve e = true /\ tentatives e <= 4).
  { intros Hv.
    assert (Hs : 1 <= s <= 10) by (apply randint_valide; [assumption | lia]).
    destruct (arret_encadre s e Hs Ha Hstop) as [Hf Ht']. split; [assumption | lia]. }
  exists (tentatives e), (if trouve e then 1 else 0).
  destruct (trouve e) eqn:Hf; eexists; (split; [|split; [assumption|split; [lia|]]]).
  - unfold bind, print, print_end, ret. cbn [rng rng_pos stdout negb].
    rewrite Hg. unfold avance, apres, w1. cbn [rng rng_pos stdout].
    rewrite Nat.add_1_r. rewrite <- !app_assoc. reflexivity.
  - intros H. destruct (Hv H) as [_ Ht']. split; [reflexivity|]. split; [lia|].
    repeat (apply Forall_cons; [reflexivity|]).
    apply sans_echec_app; [assumption|]. repeat constructor.
  - unfold bind, print, print_end, ret. cbn [rng rng_pos stdout negb].
    rewrite Hg. unfold avance, apres, w1. cbn [rng rng_pos stdout].
    rewrite Nat.add_1_r. rewrite <- !app_assoc. reflexivity.
  - intros H. destruct (Hv H) as [Hx _]. discriminate.
Qed.

Lemma parties_termine fuel w :
  (5 <= fuel)%nat ->
  exists t g l,
    parties fuel w = Some ((t, g), avance w 5 l) /\
    5 <= t <= 25 /\ 0 <= g <= 5 /\
    (valid_rng (rng w) -> g = 5 /\ t <= 20 /\ sans_echec l).
Proof.
  intros Hfuel. unfold parties.
  unfold bind at 1. unfold print at 1, print_end at 1.
  unfold bind at 1. unfold print at 1, print_end at 1. cbn [rng rng_pos stdout].
  match goal with |- context [for_ _ _ _ ?W] => set (w0 := W) end.
  pose (I := fun (n : nat) (acc : Z * Z) (w' : World) =>
    exists l, w' = avance w0 n l /\
      Z.of_nat n <= fst acc <= 5 * Z.of_nat n /\
      0 <= snd acc <= Z.of_nat n /\
      (valid_rng (rng w) ->
         snd acc = Z.of_nat n /\ fst acc <= 4 * Z.of_nat n /\ sans_echec l)).
  destruct (for_rule (partie_body fuel) I) with
    (xs := range 1 6) (n := 0%nat) (s := (0, 0)) (w := w0)
    as ([t g] & w' & Hrun & (l & Hw & Ht & Hg & Hv)).
  - intros n partie [t g] w1 (l & Hw & Ht & Hg & Hv). cbn [fst snd] in Ht, Hg, Hv.
    destruct (partie_body_termine fuel partie t g w1 Hfuel)
      as (a & k & l' & Hrun & Ha & Hk & Hv').
    exists (t + a, g + k), (avance w1 1 l'). split; [assumption|].
    exists (l ++ l')%list. subst w1. rewrite avance_avance, Nat.add_1_r.
    split; [reflexivity|]. cbn [fst snd]. split; [lia|]. split; [lia|].
    intros H. destruct (Hv H) as (Hg1 & Ht1 & Hl1).
    destruct (Hv' H) as (Hk1 & Ha1 & Hl2).
    split; [lia|]. split; [lia|]. apply sans_echec_app; assumption.
  - exists []. rewrite avance_0. cbn [fst snd]. split; [reflexivity|].
    split; [lia|]. split; [lia|]. intros _. split; [lia|]. split; [lia | constructor].
  - cbn [fst snd] in Ht, Hg, Hv.
    change (0 + List.length (range 1 6))%nat with 5%nat in *.
    exists t, g. eexists. rewrite Hrun, Hw. split.
    + unfold avance, w0. cbn [rng rng_pos stdout].
      rewrite <- !app_assoc. reflexivity.
    + split; [lia|]. split; [lia|]. intros H.
      destruct (Hv H) as (Hg1 & Ht1 & Hl1). split; [lia|]. split; [lia|].
      repeat (apply Forall_cons; [reflexivity|]). assumption.
Qed.

(** ** The final statistics *)

Lemma statistiques_sortie t g w :
  statistiques t g w =
    Some (tt, apres w (rapport g (taux_str g) (moyenne_str t))).
Proof.
  unfold statistiques, bind, print, print_end, apres, rapport.
  cbn [rng rng_pos stdout]. rewrite <- !app_assoc. reflexivity.
Qed.

Lemma rapport_sans_echec g a b : sans_echec (rapport g a b).
Proof. unfold rapport. repeat (apply Forall_cons; [reflexivity|]). constructor. Qed.

(** On the counts that five rounds can produce, the floating-point
    quotients print as the exact quotients rounded to one decimal. *)
Lemma taux_str_exact g :
  0 <= g <= 5 -> taux_str g = spec_one_decimal (spec_win_rate g).
Proof.
  intros H.
  assert (Hc : g = 0 \/ g = 1 \/ g = 2 \/ g = 3 \/ g = 4 \/ g = 5) by lia.
  repeat (destruct Hc as [-> | Hc]; [vm_compute; reflexivity|]).
  subst g. vm_compute. reflexivity.
Qed.

Lemma moyenne_str_exact t :
  0 <= t <= 25 -> moyenne_str t = spec_one_decimal (spec_mean_attempts t).
Proof.
  intros H.
  assert (Hn : exists n, (n <= 25)%nat /\ t = Z.of_nat n).
  { exists (Z.to_nat t). lia. }
  destruct Hn as (n & Hn & ->). clear H.
  do 26 (destruct n as [|n]; [vm_compute; reflexivity|]). lia.
Qed.

Lemma devine_le_nombre_auto_termine fuel w :
  (5 <= fuel)%nat ->
  exists t g l,
    parties fuel w = Some ((t, g), avance w 5 l) /\
    devine_le_nombre_auto fuel w =
      Some (tt, avance w 5 (l ++ rapport g (taux_str g) (moyenne_str t))) /\
    5 <= t <= 25 /\ 0 <= g <= 5 /\
    (valid_rng (rng w) -> g = 5 /\ t <= 20 /\ sans_echec l).
Proof.
  intros Hfuel.
  destruct (parties_termine fuel w Hfuel) as (t & g & l & Hrun & Ht & Hg & Hv).
  exists t, g, l. split; [assumption|]. split; [|auto].
  unfold devine_le_nombre_auto, bind. rewrite Hrun. cbn [fst snd].
  rewrite statistiques_sortie. unfold apres, avance. cbn [rng rng_pos stdout].
  rewrite <- app_assoc. reflexivity.
Qed.

(** ** jeu_demo_simple *)

Lemma demo_body_gagne s i g w :
  g = s -> demo_body s (i, g) w = Some (true, apres w [essai i g; gagne]).
Proof.
  intros H. unfold demo_body. apply Z.eqb_eq in H. rewrite H.
  unfold bind, print, print_end, ret, apres. cbn [rng rng_pos stdout].
  rewrite <- app_assoc, append_vide. reflexivity.
Qed.

Lemma demo_body_rate s i g w :
  g <> s -> demo_body s (i, g) w = Some (false, apres w [essai i g; indice s g]).
Proof.
  intros H. unfold demo_body, indice. apply Z.eqb_neq in H. rewrite H.
  unfold bind, print, print_end, ret, apres.
  destruct (g <? s); cbn [rng rng_pos stdout];
    rewrite <- app_assoc, append_vide; reflexivity.
Qed.

Lemma apres_apres w l1 l2 : apres (apres w l1) l2 = apres w (l1 ++ l2).
Proof. unfold apres; simpl. rewrite app_assoc. reflexivity. Qed.

(** The pass over three guesses [g1], [g2], [g3] against the secret [s]. *)
Lemma passe_cas s g1 g2 g3 w :
  exists l,
    for_else (enumerate [g1; g2; g3] 1) (demo_body s) (reveal s) w
      = Some (tt, apres w l) /\
    (g1 = s /\ l = [essai 1 g1; gagne] \/
     g1 <> s /\ g2 = s /\ l = [essai 1 g1; indice s g1; essai 2 g2; gagne] \/
     g1 <> s /\ g2 <> s /\ g3 = s /\
       l = [essai 1 g1; indice s g1; essai 2 g2; indice s g2; essai 3 g3; gagne] \/
     g1 <> s /\ g2 <> s /\ g3 <> s /\
       l = [essai 1 g1; indice s g1; essai 2 g2; indice s g2; essai 3 g3;
            indice s g3; revelation s]).
Proof.
  cbn [enumerate for_else]. change (1 + 1) with 2. change (2 + 1) with 3.
  destruct (Z.eq_dec g1 s) as [E1 | E1].
  { eexists. split; [|left; split; [assumption | reflexivity]].
    unfold bind. rewrite demo_body_gagne by assumption. reflexivity. }
  destruct (Z.eq_dec g2 s) as [E2 | E2].
  { eexists. split; [|right; left; repeat (split; [assumption|]); reflexivity].
    unfold bind. rewrite demo_body_rate by assumption.
    rewrite demo_body_gagne by assumption. rewrite apres_apres. reflexivity. }
  destruct (Z.eq_dec g3 s) as [E3 | E3].
  { eexists. split; [|right; right; left; repeat (split; [assumption|]); reflexivity].
    unfold bind. rewrite demo_body_rate by assumption.
    rewrite demo_body_rate by assumption.
    rewrite demo_body_gagne by assumption. rewrite !apres_apres. reflexivity. }
  eexists. split; [|right; right; right; repeat (split; [assumption|]); reflexivity].
  unfold bind. rewrite !demo_body_rate by assumption.
  unfold reveal, print, print_end. rewrite !apres_apres.
  unfold apres. cbn [rng rng_pos stdout]. rewrite <- app_assoc. reflexivity.
Qed.

Lemma jeu_demo_simple_passe w :
  jeu_demo_simple w =
    for_else (enumerate [demo_essai w 1; demo_essai w 2; demo_essai w 3] 1)
      (demo_body (demo_secret w)) (reveal (demo_secret w))
      (avance w 4 (demo_entete (demo_secret w))).
Proof.
  unfold jeu_demo_simple, demo_secret, demo_essai, avance, demo_entete.
  unfold list_comp, bind, randint, print, print_end, ret.
  cbn [rng rng_pos stdout].
  rewrite <- !app_assoc.
  replace (rng_pos w + 1)%nat with (S (rng_pos w)) by lia.
  replace (rng_pos w + 2)%nat with (S (S (rng_pos w))) by lia.
  replace (rng_pos w + 3)%nat with (S (S (S (rng_pos w)))) by lia.
  replace (rng_pos w + 4)%nat with (S (S (S (S (rng_pos w))))) by lia.
  reflexivity.
Qed.

Lemma jeu_demo_simple_termine w :
  exists l, jeu_demo_simple w = Some (tt, avance w 4 l).
Proof.
  rewrite jeu_demo_simple_passe.
  destruct (passe_cas (demo_secret w) (demo_essai w 1) (demo_essai w 2)
              (demo_essai w 3) (avance w 4 (demo_entete (demo_secret w))))
    as (l & Hrun & _).
  rewrite Hrun. eexists. unfold apres, avance. cbn [rng rng_pos stdout].
  rewrite <- app_assoc. reflexivity.
Qed.

(** ** The whole script *)

Lemma main_termine fuel w :
  (5 <= fuel)%nat -> exists l, main fuel w = Some (tt, avance w 9 l).
Proof.
  intros Hfuel.
  destruct (devine_le_nombre_auto_termine fuel w Hfuel)
    as (t & g & l & _ & Hrun & _).
  unfold main. unfold bind at 1. rewrite Hrun.
  unfold bind at 1. unfold print at 1, print_end at 1.
  match goal with |- context [jeu_demo_simple ?W] =>
    destruct (jeu_demo_simple_termine W) as (l' & Hdemo); rewrite Hdemo end.
  eexists. unfold avance. cbn [rng rng_pos stdout].
  rewrite <- !app_assoc. rewrite <- !Nat.add_assoc. reflexivity.
Qed.

(** ** Dependence on the random source

    Two worlds are alike when their consoles hold the same text, the same
    number of random integers has been drawn, and their generators answer
    every [randint(1, 10)] call alike.  Every computation of the script takes
    alike worlds to equal results in alike worlds. *)

Lemma det_ret {A : Type} (a : A) : det (ret a).
Proof. intros w1 w2 H. simpl. auto. Qed.

Lemma det_bind {A B : Type} (m : M A) (k : A -> M B) :
  det m -> (forall a, det (k a)) -> det (bind m k).
Proof.
  intros Hm Hk w1 w2 H. unfold bind. specialize (Hm w1 w2 H).
  destruct (m w1) as [[a1 w1']|], (m w2) as [[a2 w2']|]; simpl in Hm;
    try contradiction; [|exact I].
  destruct Hm as [<- Hw]. apply Hk. assumption.
Qed.

Lemma det_diverge {A : Type} : det (@diverge A).
Proof. intros w1 w2 H. exact I. Qed.

Lemma det_print_end s e : det (print_end s e).
Proof.
  intros w1 w2 (Hr & Hp & Ho). simpl. split; [reflexivity|].
  unfold semblables; simpl. rewrite Ho. auto.
Qed.

Lemma det_print s : det (print s).
Proof. apply det_print_end. Qed.

Lemma det_randint : det (randint 1 10).
Proof.
  intros w1 w2 (Hr & Hp & Ho). simpl. rewrite Hp. split; [apply Hr|].
  unfold semblables; simpl. auto.
Qed.

Lemma det_if {A : Type} (c : bool) (m1 m2 : M A) :
  det m1 -> det m2 -> det (if c then m1 else m2).
Proof. destruct c; auto. Qed.

Lemma det_while {S : Type} (cond : S -> bool) (body : S -> M S) :
  (forall s, det (body s)) -> forall fuel s, det (while_ fuel cond body s).
Proof.
  intros Hb fuel. induction fuel as [|fuel IH]; intros s; simpl;
    destruct (cond s); try apply det_ret; [apply det_diverge|].
  apply det_bind; auto.
Qed.

Lemma det_for {A S : Type} (body : A -> S -> M S) :
  (forall x s, det (body x s)) -> forall xs s, det (for_ xs body s).
Proof.
  intros Hb xs. induction xs as [|x xs IH]; intros s; simpl;
    [apply det_ret | apply det_bind; auto].
Qed.

Lemma det_for_else {A : Type} (body : A -> M bool) (orelse : M unit) :
  (forall x, det (body x)) -> det orelse -> forall xs, det (for_else xs body orelse).
Proof.
  intros Hb Ho xs. induction xs as [|x xs IH]; simpl; [assumption|].
  apply det_bind; [apply Hb|]. intros stop. apply det_if; [apply det_ret | assumption].
Qed.

Lemma det_list_comp {A : Type} (m : M A) n : det m -> det (list_comp n m).
Proof.
  intros Hm. induction n as [|n IH]; simpl; [apply det_ret|].
  apply det_bind; [assumption|]. intros x.
  apply det_bind; [assumption|]. intros xs. apply det_ret.
Qed.

Create HintDb det.
#[local] Hint Resolve det_ret det_bind det_diverge det_print_end det_print
  det_randint det_if det_while det_for det_for_else det_list_comp : det.

Lemma det_iteration s e : det (iteration s e).
Proof. unfold iteration. auto 10 with det. Qed.

Lemma det_partie_body fuel partie acc : det (partie_body fuel partie acc).
Proof.
  destruct acc as [t g]. unfold partie_body, recherche.
  pose proof det_iteration. auto 10 with det.
Qed.

Lemma det_devine_le_nombre_auto fuel : det (devine_le_nombre_auto fuel).
Proof.
  unfold devine_le_nombre_auto, parties, statistiques.
  pose proof det_partie_body. auto 15 with det.
Qed.

Lemma det_demo_body s it : det (demo_body s it).
Proof. destruct it as [i g]. unfold demo_body. auto 10 with det. Qed.

Lemma det_jeu_demo_simple : det jeu_demo_simple.
Proof.
  unfold jeu_demo_simple, reveal. pose proof det_demo_body. auto 10 with det.
Qed.

Lemma det_main fuel : det (main fuel).
Proof.
  unfold main. pose proof det_devine_le_nombre_auto.
  pose proof det_jeu_demo_simple. auto 10 with det.
Qed.

Lemma semblables_monde r1 r2 :
  memes_tirages r1 r2 -> semblables (monde r1) (monde r2).
Proof. intros H. unfold semblables, monde; simpl. auto. Qed.

(** ** Unrolling the search loop *)

Lemma while_pas {S : Type} fuel (cond : S -> bool) (body : S -> M S) s w s' w' :
  cond s = true -> body s w = Some (s', w') ->
  while_ (Datatypes.S fuel) cond body s w = while_ fuel cond body s' w'.
Proof. intros Hc Hb. simpl. rewrite Hc. unfold bind. rewrite Hb. reflexivity. Qed.

Lemma while_arret {S : Type} fuel (cond : S -> bool) (body : S -> M S) s w :
  cond s = false -> while_ fuel cond body s w = Some (s, w).
Proof. intros Hc. destruct fuel; simpl; rewrite Hc; reflexivity. Qed.

Lemma recherche_gagne fuel s g w :
  (5 <= fuel)%nat -> 1 <= s <= 10 ->
  exists e l,
    recherche fuel s g w = Some (e, apres w l) /\ sans_echec l /\
    trouve e = true /\ 1 <= tentatives e <= 4 /\ parties_gagnees e = g + 1.
Proof.
  intros Hfuel Hs.
  destruct (recherche_termine fuel s g w Hfuel)
    as (e & l & Hrun & Hl & Hstop & Ht & Hg & Ha & _).
  destruct (arret_encadre s e Hs Ha Hstop) as [Hf Ht'].
  exists e, l. rewrite Hf in Hg. auto.
Qed.

(** ** The specification's steps determine the round *)

Lemma spec_step_fonction s x y z :
  spec_step s x y -> spec_step s x z -> y = z.
Proof.
  intros Hy Hz. destruct Hy; inversion Hz; subst; try reflexivity; lia.
Qed.

Lemma spec_run_tete s x y :
  spec_run s x y ->
  x = y \/ exists x', ~ spec_stopped x /\ spec_step s x x' /\ spec_run s x' y.
Proof.
  intros H. induction H as [x | x y z Hxy IH Hns Hstep].
  - left. reflexivity.
  - right. destruct IH as [-> | (x' & Hx & Hsx & Hr)].
    + exists z. split; [assumption|]. split; [assumption | constructor].
    + exists x'. split; [assumption|]. split; [assumption|].
      apply (run_more s x' y z); assumption.
Qed.

Lemma spec_run_ordre s x y z :
  spec_run s x y -> spec_run s x z -> spec_run s y z \/ spec_run s z y.
Proof.
  intros Hy Hz. induction Hz as [x | x z' z Hxz IH Hns Hstep].
  - right. assumption.
  - destruct (IH Hy) as [H | H].
    + left. apply (run_more s y z' z); assumption.
    + destruct (spec_run_tete s z' y H) as [<- | (x' & _ & Hsx & Hr)].
      * left. apply (run_more s z' z' z); [constructor | assumption | assumption].
      * right. rewrite (spec_step_fonction s z' z x' Hstep Hsx). assumption.
Qed.

Lemma spec_run_unique s x y z :
  spec_run s x y -> spec_stopped y ->
  spec_run s x z -> spec_stopped z -> y = z.
Proof.
  intros Hy Sy Hz Sz.
  destruct (spec_run_ordre s x y z Hy Hz) as [H | H];
    destruct (spec_run_tete _ _ _ H) as [E | (x' & Hns & _)];
    try contradiction; auto.
Qed.

(** ** Counting chunks of the quick demo *)

Lemma compte_cons p c l :
  compte p (c :: l) = ((if p c then 1 else 0) + compte p l)%nat.
Proof. unfold compte. simpl. destruct (p c); reflexivity. Qed.

Lemma compte_nil p : compte p [] = 0%nat.
Proof. reflexivity. Qed.

Lemma essai_essai i g : est_essai (essai i g) = true.
Proof. reflexivity. Qed.
Lemma essai_indice s g : est_essai (indice s g) = false.
Proof. unfold indice. destruct (g <? s); reflexivity. Qed.
Lemma essai_gagne : est_essai gagne = false.
Proof. reflexivity. Qed.
Lemma essai_revelation s : est_essai (revelation s) = false.
Proof. reflexivity. Qed.

Lemma revelation_essai i g : est_revelation (essai i g) = false.
Proof. reflexivity. Qed.
Lemma revelation_indice s g : est_revelation (indice s g) = false.
Proof. unfold indice. destruct (g <? s); reflexivity. Qed.
Lemma revelation_gagne : est_revelation gagne = false.
Proof. reflexivity. Qed.
Lemma revelation_revelation s : est_revelation (revelation s) = true.
Proof. reflexivity. Qed.

Lemma gagne_essai i g : est_gagne (essai i g) = false.
Proof. reflexivity. Qed.
Lemma gagne_indice s g : est_gagne (indice s g) = false.
Proof. unfold indice. destruct (g <? s); reflexivity. Qed.
Lemma gagne_gagne : est_gagne gagne = true.
Proof. reflexivity. Qed.
Lemma gagne_revelation s : est_gagne (revelation s) = false.
Proof. reflexivity. Qed.

Create Rewrite HintDb demo.
#[local] Hint Rewrite compte_cons compte_nil
  essai_essai essai_indice essai_gagne essai_revelation
  revelation_essai revelation_indice revelation_gagne revelation_revelation
  gagne_essai gagne_indice gagne_gagne gagne_revelation : demo.

(** ** Sample random sources *)

Lemma rng_min_valide : valid_rng rng_min.
Proof. intros i a b H. unfold rng_min. lia. Qed.

Lemma rng_sept_valide : valid_rng rng_sept.
Proof. intros i a b H. unfold rng_sept. lia. Qed.

(** * The claims *)

(** C2: a round follows the steps of the specification, from the interval
    [1, 10] with no attempt made, until it is found or five attempts are
    counted; those steps leave no choice, so the round the loop returns is
    the only one they allow. *)
Theorem round_follows_steps fuel s g w :
  (5 <= fuel)%nat ->
  exists e w',
    recherche fuel s g w = Some (e, w') /\
    spec_run s spec_start (vue e) /\ spec_stopped (vue e) /\
    (forall x, spec_run s spec_start x -> spec_stopped x -> x = vue e).
Proof.
  intros Hfuel.
  destruct (recherche_termine fuel s g w Hfuel)
    as (e & l & Hrun & _ & Hstop & Ht & _ & _ & Hspec).
  assert (Hs : spec_stopped (vue e)).
  { unfold spec_stopped; simpl.
    destruct (continuer_false _ Hstop) as [H | H]; [left; assumption | right; lia]. }
  exists e, (apres w l). repeat split; try assumption.
  intros x Hx Sx. apply (spec_run_unique s spec_start); assumption.
Qed.

Lemma round_follows_steps_witness :
  (5 <= 5)%nat /\
  exists e w',
    recherche 5 7 0 (monde rng_sept) = Some (e, w') /\
    spec_run 7 spec_start (vue e) /\ spec_stopped (vue e) /\
    (forall x, spec_run 7 spec_start x -> spec_stopped x -> x = vue e).
Proof.
  split; [lia|]. exact (round_follows_steps 5 7 0 (monde rng_sept) (le_n 5)).
Defined.

(** C3: the quick demo returns, having drawn four integers (the secret [s],
    then the guesses [g1], [g2], [g3]).  The attempts printed stop at the
    first guess equal to the secret.  When one of the guesses matches, the
    win message is printed once, it is the last thing printed, and no reveal
    message is printed; when none matches, the reveal message with the
    secret is printed exactly once, as the last thing, and no win message. *)
Theorem demo_reveal_only_without_match w :
  let s := demo_secret w in
  let g1 := demo_essai w 1 in
  let g2 := demo_essai w 2 in
  let g3 := demo_essai w 3 in
  exists l,
    jeu_demo_simple w = Some (tt, avance w 4 (demo_entete s ++ l)) /\
    compte est_essai l =
      (if g1 =? s then 1%nat else if g2 =? s then 2%nat else 3%nat) /\
    (In s [g1; g2; g3] ->
       compte est_revelation l = 0%nat /\ compte est_gagne l = 1%nat /\
       last l "" = gagne) /\
    (~ In s [g1; g2; g3] ->
       compte est_revelation l = 1%nat /\ compte est_gagne l = 0%nat /\
       last l "" = revelation s).
Proof.
  intros s g1 g2 g3. rewrite jeu_demo_simple_passe.
  fold s g1 g2 g3.
  destruct (passe_cas s g1 g2 g3 (avance w 4 (demo_entete s)))
    as (l & Hrun & Hcas).
  exists l. split.
  { rewrite Hrun. unfold apres, avance. cbn [rng rng_pos stdout].
    rewrite <- app_assoc. reflexivity. }
  destruct Hcas as [(E1 & ->) | [(N1 & E2 & ->) | [(N1 & N2 & E3 & ->)
                   | (N1 & N2 & N3 & ->)]]].
  - apply Z.eqb_eq in E1 as B1. rewrite B1.
    autorewrite with demo. split; [reflexivity|].
    split; [intros _; repeat split; reflexivity|].
    intros H. exfalso. apply H. left. assumption.
  - apply Z.eqb_neq in N1 as B1. apply Z.eqb_eq in E2 as B2. rewrite B1, B2.
    autorewrite with demo. split; [reflexivity|].
    split; [intros _; repeat split; reflexivity|].
    intros H. exfalso. apply H. right. left. assumption.
  - apply Z.eqb_neq in N1 as B1. apply Z.eqb_neq in N2 as B2. rewrite B1, B2.
    autorewrite with demo. split; [destruct (g3 =? s); reflexivity|].
    split; [intros _; repeat split; reflexivity|].
    intros H. exfalso. apply H. right. right. left. assumption.
  - apply Z.eqb_neq in N1 as B1. apply Z.eqb_neq in N2 as B2. rewrite B1, B2.
    autorewrite with demo. split; [reflexivity|].
    split; [|intros _; repeat split; reflexivity].
    intros [H | [H | [H | []]]]; congruence.
Qed.

(** C4: the simulation returns, and its report, printed after the five
    rounds, gives the win rate as the exact quotient (won / 5) * 100 rounded
    to one decimal and the mean as the exact quotient total / 5 rounded to
    one decimal, for the counts [gagnees] and [total] that the five rounds
    have accumulated. *)
Theorem report_rates_exact fuel r :
  (5 <= fuel)%nat ->
  exists total gagnees l,
    parties fuel (monde r) = Some ((total, gagnees), avance (monde r) 5 l) /\
    sortie (devine_le_nombre_auto fuel) r =
      Some (l ++ rapport gagnees
                   (spec_one_decimal (spec_win_rate gagnees))
                   (spec_one_decimal (spec_mean_attempts total)))%list.
Proof.
  intros Hfuel.
  destruct (devine_le_nombre_auto_termine fuel (monde r) Hfuel)
    as (t & g & l & Hp & Hrun & Ht & Hg & _).
  exists t, g, l. split; [assumption|].
  unfold sortie. rewrite Hrun. cbn [avance monde stdout app].
  rewrite taux_str_exact by assumption.
  rewrite moyenne_str_exact by lia. reflexivity.
Qed.

Lemma report_rates_exact_witness :
  (5 <= 5)%nat /\
  exists total gagnees l,
    parties 5 (monde rng_sept) =
      Some ((total, gagnees), avance (monde rng_sept) 5 l) /\
    sortie (devine_le_nombre_auto 5) rng_sept =
      Some (l ++ rapport gagnees
                   (spec_one_decimal (spec_win_rate gagnees))
                   (spec_one_decimal (spec_mean_attempts total)))%list.
Proof.
  split; [lia|]. exact (report_rates_exact 5 rng_sept (le_n 5)).
Defined.

(** C5, as the code has it: the secret 1 is found in exactly three attempts,
    the guesses being 5, 2 and 1. *)
Theorem secret_1_three_attempts fuel g w :
  (5 <= fuel)%nat ->
  recherche fuel 1 g w =
    Some (mkEtat 1 1 3 true (g + 1),
          apres w [annonce 1 5; trop_grand; annonce 2 2; trop_grand;
                   annonce 3 1; trouve_msg]).
Proof.
  intros Hfuel.
  do 5 (destruct fuel as [|fuel]; [lia|]). clear Hfuel.
  unfold recherche, etat_initial.
  erewrite while_pas; [|reflexivity | apply iteration_grand; reflexivity].
  erewrite while_pas; [|reflexivity | apply iteration_grand; reflexivity].
  erewrite while_pas; [|reflexivity | apply iteration_trouve; reflexivity].
  rewrite while_arret by reflexivity.
  rewrite !apres_apres. reflexivity.
Qed.

Lemma secret_1_three_attempts_witness :
  (5 <= 5)%nat /\
  recherche 5 1 0 (monde rng_min) =
    Some (mkEtat 1 1 3 true 1,
          apres (monde rng_min)
            [annonce 1 5; trop_grand; annonce 2 2; trop_grand;
             annonce 3 1; trouve_msg]).
Proof.
  split; [lia|]. exact (secret_1_three_attempts 5 0 (monde rng_min) (le_n 5)).
Defined.

(** C5, as stated, fails: with the secret 1 the loop does not make four
    attempts, and the guesses printed are not 5, 3, 2, 1. *)
Lemma secret_1_not_four_attempts :
  exists e w,
    recherche 5 1 0 (monde rng_min) = Some (e, w) /\
    tentatives e <> 4 /\
    stdout w <> [annonce 1 5; trop_grand; annonce 2 3; trop_grand;
                 annonce 3 2; trop_grand; annonce 4 1; trouve_msg].
Proof.
  eexists; eexists. split; [vm_compute; reflexivity|].
  split; intros H; vm_compute in H; discriminate H.
Qed.

(** C6: with the secret 7 the guesses are 5 (too small, interval [6, 10]),
    8 (too big, interval [6, 7]), 6 (too small, interval [7, 7]) and 7,
    found at the fourth attempt. *)
Theorem secret_7_four_attempts fuel g w :
  (5 <= fuel)%nat ->
  let e1 := mkEtat 6 10 1 false g in
  let e2 := mkEtat 6 7 2 false g in
  let e3 := mkEtat 7 7 3 false g in
  let e4 := mkEtat 7 7 4 true (g + 1) in
  let w1 := apres w [annonce 1 5; trop_petit] in
  let w2 := apres w1 [annonce 2 8; trop_grand] in
  let w3 := apres w2 [annonce 3 6; trop_petit] in
  let w4 := apres w3 [annonce 4 7; trouve_msg] in
  iteration 7 (etat_initial g) w = Some (e1, w1) /\
  iteration 7 e1 w1 = Some (e2, w2) /\
  iteration 7 e2 w2 = Some (e3, w3) /\
  iteration 7 e3 w3 = Some (e4, w4) /\
  recherche fuel 7 g w = Some (e4, w4).
Proof.
  intros Hfuel e1 e2 e3 e4 w1 w2 w3 w4.
  assert (H1 : iteration 7 (etat_initial g) w = Some (e1, w1))
    by (apply iteration_petit; reflexivity).
  assert (H2 : iteration 7 e1 w1 = Some (e2, w2))
    by (apply iteration_grand; reflexivity).
  assert (H3 : iteration 7 e2 w2 = Some (e3, w3))
    by (apply iteration_petit; reflexivity).
  assert (H4 : iteration 7 e3 w3 = Some (e4, w4))
    by (apply iteration_trouve; reflexivity).
  repeat (split; [assumption|]).
  do 5 (destruct fuel as [|fuel]; [lia|]). clear Hfuel.
  unfold recherche.
  rewrite (while_pas _ _ _ _ _ _ _ eq_refl H1).
  rewrite (while_pas _ _ _ _ _ _ _ eq_refl H2).
  rewrite (while_pas _ _ _ _ _ _ _ eq_refl H3).
  rewrite (while_pas _ _ _ _ _ _ _ eq_refl H4).
  apply while_arret. reflexivity.
Qed.

Lemma secret_7_four_attempts_witness :
  (5 <= 5)%nat /\
  recherche 5 7 0 (monde rng_sept) =
    Some (mkEtat 7 7 4 true 1,
          apres (apres (apres (apres (monde rng_sept)
            [annonce 1 5; trop_petit]) [annonce 2 8; trop_grand])
            [annonce 3 6; trop_petit]) [annonce 4 7; trouve_msg]).
Proof.
  split; [lia|].
  exact (proj2 (proj2 (proj2 (proj2
    (secret_7_four_attempts 5 0 (monde rng_sept) (le_n 5)))))).
Defined.

(** C7: whatever the random source answers, the loop of a round returns with
    between one and five attempts counted, and the round adds that many to
    the total. *)
Theorem attempts_between_1_and_5 fuel partie total g w :
  (5 <= fuel)%nat ->
  (forall s w', exists e w2,
     recherche fuel s g w' = Some (e, w2) /\ 1 <= tentatives e <= 5) /\
  exists n g' w2,
    partie_body fuel partie (total, g) w = Some ((total + n, g'), w2) /\
    1 <= n <= 5.
Proof.
  intros Hfuel. split.
  - intros s w'.
    destruct (recherche_termine fuel s g w' Hfuel) as (e & l & Hrun & _ & _ & Ht & _).
    exists e, (apres w' l). auto.
  - destruct (partie_body_termine fuel partie total g w Hfuel)
      as (n & k & l & Hrun & Hn & _).
    exists n, (g + k), (avance w 1 l). auto.
Qed.

Lemma attempts_between_1_and_5_witness :
  (5 <= 5)%nat /\
  exists n g' w2,
    partie_body 5 1 (0, 0) (monde rng_sept) = Some ((0 + n, g'), w2) /\
    1 <= n <= 5.
Proof.
  split; [lia|].
  exact (proj2 (attempts_between_1_and_5 5 1 0 0 (monde rng_sept) (le_n 5))).
Defined.

(** C8: when the generator honours the bounds of [randint(1, 10)], the
    secret drawn for a round stays inside the interval in every state the
    guessing loop goes through, the state it returns included. *)
Theorem secret_stays_in_interval w :
  valid_rng (rng w) ->
  exists s w1,
    randint 1 10 w = Some (s, w1) /\
    (forall e, atteint s e -> min_val e <= s <= max_val e) /\
    (forall fuel g w', (5 <= fuel)%nat ->
       exists e w2, recherche fuel s g w' = Some (e, w2) /\
                    atteint s e /\ min_val e <= s <= max_val e).
Proof.
  intros Hv. eexists; eexists. split; [reflexivity|].
  assert (Hs : 1 <= rng w (rng_pos w) 1 10 <= 10)
    by (apply randint_valide; [assumption | lia]).
  split.
  - intros e Ha. apply (atteint_encadre _ e Hs Ha).
  - intros fuel g w' Hfuel.
    destruct (recherche_termine fuel (rng w (rng_pos w) 1 10) g w' Hfuel)
      as (e & l & Hrun & _ & _ & _ & _ & Ha & _).
    exists e, (apres w' l). split; [assumption|]. split; [assumption|].
    apply (atteint_encadre _ e Hs Ha).
Qed.

Lemma secret_stays_in_interval_witness :
  valid_rng (rng (monde rng_sept)) /\
  exists s w1,
    randint 1 10 (monde rng_sept) = Some (s, w1) /\
    (forall e, atteint s e -> min_val e <= s <= max_val e) /\
    (forall fuel g w', (5 <= fuel)%nat ->
       exists e w2, recherche fuel s g w' = Some (e, w2) /\
                    atteint s e /\ min_val e <= s <= max_val e).
Proof.
  split; [exact rng_sept_valide|].
  exact (secret_stays_in_interval (monde rng_sept) rng_sept_valide).
Defined.

(** C9: two runs of the script whose generators answer every
    [randint(1, 10)] call alike both return, with the same console output. *)
Theorem same_draws_same_output r1 r2 fuel :
  (5 <= fuel)%nat -> memes_tirages r1 r2 ->
  exists out,
    sortie (main fuel) r1 = Some out /\ sortie (main fuel) r2 = Some out.
Proof.
  intros Hfuel Hr.
  destruct (main_termine fuel (monde r1) Hfuel) as (l1 & H1).
  destruct (main_termine fuel (monde r2) Hfuel) as (l2 & H2).
  pose proof (det_main fuel _ _ (semblables_monde r1 r2 Hr)) as Hd.
  rewrite H1, H2 in Hd. destruct Hd as (_ & _ & _ & Ho).
  unfold sortie. rewrite H1, H2. rewrite <- Ho. eexists. split; reflexivity.
Qed.

Lemma same_draws_same_output_witness :
  (5 <= 5)%nat /\ memes_tirages rng_sept (fun _ _ _ => 7) /\
  exists out,
    sortie (main 5) rng_sept = Some out /\
    sortie (main 5) (fun _ _ _ => 7) = Some out.
Proof.
  split; [lia|].
  assert (H : memes_tirages rng_sept (fun _ _ _ => 7))
    by (intros i; reflexivity).
  split; [exact H|].
  exact (same_draws_same_output rng_sept (fun _ _ _ => 7) 5 (le_n 5) H).
Defined.

(** * Further properties *)

(** ** The search as a function of the secret *)

Ltac un_pas :=
  erewrite while_pas;
  [ | reflexivity
    | first [ apply iteration_petit; reflexivity
            | apply iteration_grand; reflexivity
            | apply iteration_trouve; reflexivity ] ].

Lemma recherche_zero fuel g w :
  (5 <= fuel)%nat ->
  exists l, recherche fuel 0 g w = Some (mkEtat 1 0 4 true (g + 1), apres w l).
Proof.
  intros Hfuel. do 5 (destruct fuel as [|fuel]; [lia|]). clear Hfuel.
  unfold recherche, etat_initial. repeat un_pas.
  rewrite while_arret by reflexivity. rewrite !apres_apres.
  eexists. reflexivity.
Qed.

Lemma atteint_hors s e :
  s < 0 \/ 10 < s -> atteint s e ->
  trouve e = false /\
  (10 < s -> max_val e = 10 /\ min_val e <= 11) /\
  (s < 0 -> min_val e = 1 /\ -1 <= max_val e).
Proof.
  intros Hs Ha. induction Ha as [g | e e' w w' Ha IH Hc Hit].
  - simpl. repeat split; lia.
  - destruct IH as (Hf & Hhaut & Hbas).
    destruct (Z.lt_trichotomy (milieu e) s) as [H | [H | H]].
    + rewrite (iteration_petit s e w H) in Hit. inversion Hit; subst e'; clear Hit.
      simpl. split; [assumption|]. unfold milieu in *. split.
      * intros Hs'. destruct (Hhaut Hs') as [Hmax Hmin].
        split; [assumption|]. Z.div_mod_to_equations. lia.
      * intros Hs'. destruct (Hbas Hs') as [Hmin Hmax].
        exfalso. Z.div_mod_to_equations. lia.
    + exfalso. unfold milieu in H. destruct Hs as [Hs | Hs].
      * destruct (Hbas Hs) as [Hmin Hmax]. Z.div_mod_to_equations. lia.
      * destruct (Hhaut Hs) as [Hmax Hmin]. Z.div_mod_to_equations. lia.
    + rewrite (iteration_grand s e w) in Hit by lia.
      inversion Hit; subst e'; clear Hit.
      simpl. split; [assumption|]. unfold milieu in *. split.
      * intros Hs'. destruct (Hhaut Hs') as [Hmax Hmin].
        exfalso. Z.div_mod_to_equations. lia.
      * intros Hs'. destruct (Hbas Hs') as [Hmin Hmax].
        split; [assumption|]. Z.div_mod_to_equations. lia.
Qed.

Lemma atteint_bornes s e :
  1 <= s <= 10 -> atteint s e -> 1 <= min_val e /\ max_val e <= 10.
Proof.
  intros Hs Ha. induction Ha as [g | e e' w w' Ha IH Hc Hit].
  - simpl. lia.
  - destruct (atteint_encadre s e Hs Ha) as (Hin & _).
    destruct (Z.lt_trichotomy (milieu e) s) as [H | [H | H]].
    + rewrite (iteration_petit s e w H) in Hit. inversion Hit; subst e'; clear Hit.
      simpl. unfold milieu. Z.div_mod_to_equations. lia.
    + rewrite (iteration_trouve s e w H) in Hit. inversion Hit; subst e'; clear Hit.
      simpl. assumption.
    + rewrite (iteration_grand s e w) in Hit by lia.
      inversion Hit; subst e'; clear Hit.
      simpl. unfold milieu. Z.div_mod_to_equations. lia.
Qed.

(** X1: for every generator the script returns having drawn exactly nine
    random integers: the output it has printed is appended to the console
    and the call counter has advanced by nine. *)
Theorem script_draws_nine fuel w :
  (5 <= fuel)%nat ->
  exists l, main fuel w = Some (tt, mkWorld (rng w) (rng_pos w + 9) (stdout w ++ l)).
Proof.
  intros Hfuel. destruct (main_termine fuel w Hfuel) as (l & H).
  exists l. exact H.
Qed.

Lemma script_draws_nine_witness :
  (5 <= 5)%nat /\
  exists l, main 5 (monde rng_sept) = Some (tt, mkWorld rng_sept 9 l).
Proof.
  split; [lia|]. exact (script_draws_nine 5 (monde rng_sept) (le_n 5)).
Defined.

(** X3: the number of attempts of a round is decided by the secret alone:
    one attempt for 5, two for 2 and 8, three for 1, 3, 6 and 9, four for
    4, 7 and 10; in each case the round is found. *)
Theorem attempts_by_secret fuel s g w :
  (5 <= fuel)%nat -> 1 <= s <= 10 ->
  exists e w',
    recherche fuel s g w = Some (e, w') /\ trouve e = true /\
    (s = 5 -> tentatives e = 1) /\
    (s = 2 \/ s = 8 -> tentatives e = 2) /\
    (s = 1 \/ s = 3 \/ s = 6 \/ s = 9 -> tentatives e = 3) /\
    (s = 4 \/ s = 7 \/ s = 10 -> tentatives e = 4).
Proof.
  intros Hfuel Hs. do 5 (destruct fuel as [|fuel]; [lia|]). clear Hfuel.
  assert (Hc : s = 1 \/ s = 2 \/ s = 3 \/ s = 4 \/ s = 5 \/
               s = 6 \/ s = 7 \/ s = 8 \/ s = 9 \/ s = 10) by lia.
  unfold recherche, etat_initial.
  repeat (destruct Hc as [-> | Hc]; [|]); try subst s;
    (eexists; eexists; split;
     [ repeat un_pas; apply while_arret; reflexivity
     | cbn [trouve tentatives]; repeat split; intros; try reflexivity; lia ]).
Qed.

Lemma attempts_by_secret_witness :
  (5 <= 5)%nat /\ 1 <= 7 <= 10 /\
  exists e w',
    recherche 5 7 0 (monde rng_sept) = Some (e, w') /\ trouve e = true /\
    (7 = 5 -> tentatives e = 1) /\
    (7 = 2 \/ 7 = 8 -> tentatives e = 2) /\
    (7 = 1 \/ 7 = 3 \/ 7 = 6 \/ 7 = 9 -> tentatives e = 3) /\
    (7 = 4 \/ 7 = 7 \/ 7 = 10 -> tentatives e = 4).
Proof.
  split; [lia|]. split; [lia|].
  apply (attempts_by_secret 5 7 0 (monde rng_sept)); lia.
Defined.

(** X4: the loop of a round finds the secret exactly when the secret lies
    between 0 and 10; for any other secret it stops on the cap, with five
    attempts counted and the count of rounds won unchanged. *)
Theorem found_iff_secret_within_0_10 fuel s g w :
  (5 <= fuel)%nat ->
  exists e w',
    recherche fuel s g w = Some (e, w') /\
    (trouve e = true <-> 0 <= s <= 10) /\
    (trouve e = false -> tentatives e = 5 /\ parties_gagnees e = g).
Proof.
  intros Hfuel.
  assert (Hc : 1 <= s <= 10 \/ s = 0 \/ (s < 0 \/ 10 < s)) by lia.
  destruct Hc as [Hs | [-> | Hs]].
  - destruct (recherche_gagne fuel s g w Hfuel Hs) as (e & l & Hrun & _ & Hf & _).
    exists e, (apres w l). split; [assumption|].
    split; [split; [lia | intros _; assumption]|].
    rewrite Hf. discriminate.
  - destruct (recherche_zero fuel g w Hfuel) as (l & Hrun).
    eexists; eexists. split; [exact Hrun|]. simpl.
    split; [split; [lia | reflexivity] | discriminate].
  - destruct (recherche_termine fuel s g w Hfuel)
      as (e & l & Hrun & _ & Hstop & Ht & Hg & Ha & _).
    destruct (atteint_hors s e Hs Ha) as (Hf & _).
    exists e, (apres w l). split; [assumption|].
    rewrite Hf in *. split; [split; [discriminate | lia]|].
    intros _. destruct (continuer_false _ Hstop) as [H | H]; [congruence | lia].
Qed.

Lemma found_iff_secret_within_0_10_witness :
  (5 <= 5)%nat /\
  exists e w',
    recherche 5 11 0 (monde rng_sept) = Some (e, w') /\
    (trouve e = true <-> 0 <= 11 <= 10) /\
    (trouve e = false -> tentatives e = 5 /\ parties_gagnees e = 0).
Proof.
  split; [lia|].
  exact (found_iff_secret_within_0_10 5 11 0 (monde rng_sept) (le_n 5)).
Defined.

(** X7: for a secret in [1, 10], every guess the loop makes lies inside its
    current interval, and between 1 and 10. *)
Theorem guesses_inside_interval s e :
  1 <= s <= 10 -> atteint s e -> continuer e = true ->
  min_val e <= milieu e <= max_val e /\ 1 <= milieu e <= 10.
Proof.
  intros Hs Ha Hc.
  destruct (atteint_encadre s e Hs Ha) as (Hin & _).
  destruct (atteint_bornes s e Hs Ha) as [Hmin Hmax].
  unfold milieu. Z.div_mod_to_equations. lia.
Qed.

Lemma guesses_inside_interval_witness :
  1 <= 7 <= 10 /\ atteint 7 (etat_initial 0) /\
  continuer (etat_initial 0) = true /\
  min_val (etat_initial 0) <= milieu (etat_initial 0) <= max_val (etat_initial 0) /\
  1 <= milieu (etat_initial 0) <= 10.
Proof.
  assert (Hs : 1 <= 7 <= 10) by lia.
  split; [exact Hs|]. split; [apply atteint_initial|]. split; [reflexivity|].
  exact (guesses_inside_interval 7 (etat_initial 0) Hs
           (atteint_initial 7 0) eq_refl).
Defined.

(** X8: for a secret in [1, 10], a pass of the loop never widens the
    interval, and a pass that misses makes it strictly narrower and leaves
    the missed guess outside it: a round does not make the same guess
    twice. *)
Theorem miss_narrows_interval s e w e' w' :
  1 <= s <= 10 -> atteint s e -> continuer e = true ->
  iteration s e w = Some (e', w') ->
  min_val e <= min_val e' /\ max_val e' <= max_val e /\
  (trouve e' = false ->
     max_val e' - min_val e' < max_val e - min_val e /\
     ~ (min_val e' <= milieu e <= max_val e')).
Proof.
  intros Hs Ha Hc Hit.
  destruct (atteint_encadre s e Hs Ha) as (Hin & _).
  destruct (Z.lt_trichotomy (milieu e) s) as [H | [H | H]].
  - rewrite (iteration_petit s e w H) in Hit. inversion Hit; subst e'; clear Hit.
    simpl. unfold milieu in *.
    split; [Z.div_mod_to_equations; lia|].
    split; [Z.div_mod_to_equations; lia|].
    intros _. split; [Z.div_mod_to_equations; lia|].
    intros Hx. Z.div_mod_to_equations. lia.
  - rewrite (iteration_trouve s e w H) in Hit. inversion Hit; subst e'; clear Hit.
    simpl. split; [lia|]. split; [lia|]. discriminate.
  - rewrite (iteration_grand s e w) in Hit by lia.
    inversion Hit; subst e'; clear Hit.
    simpl. unfold milieu in *.
    split; [Z.div_mod_to_equations; lia|].
    split; [Z.div_mod_to_equations; lia|].
    intros _. split; [Z.div_mod_to_equations; lia|].
    intros Hx. Z.div_mod_to_equations. lia.
Qed.

Lemma miss_narrows_interval_witness :
  1 <= 7 <= 10 /\ atteint 7 (etat_initial 0) /\
  continuer (etat_initial 0) = true /\
  iteration 7 (etat_initial 0) (monde rng_sept) =
    Some (mkEtat 6 10 1 false 0,
          apres (monde rng_sept) [annonce 1 5; trop_petit]) /\
  (1 <= 6 /\ 10 <= 10 /\
   (false = false -> 10 - 6 < 10 - 1 /\ ~ (6 <= 5 <= 10))).
Proof.
  assert (Hs : 1 <= 7 <= 10) by lia.
  assert (Hit : iteration 7 (etat_initial 0) (monde rng_sept) =
                Some (mkEtat 6 10 1 false 0,
                      apres (monde rng_sept) [annonce 1 5; trop_petit]))
    by (apply iteration_petit; reflexivity).
  split; [exact Hs|]. split; [apply atteint_initial|]. split; [reflexivity|].
  split; [exact Hit|].
  exact (miss_narrows_interval 7 (etat_initial 0) (monde rng_sept) _ _ Hs
           (atteint_initial 7 0) eq_refl Hit).
Defined.

(** ** What a round prints *)

Lemma journal_app s i ds1 ds2 :
  journal s i (ds1 ++ ds2) =
    (journal s i ds1 ++ journal s (i + Z.of_nat (List.length ds1)) ds2)%list.
Proof.
  revert i. induction ds1 as [|d ds1 IH]; intros i; simpl journal.
  - simpl. rewrite Z.add_0_r. reflexivity.
  - rewrite IH. simpl.
    replace (i + 1 + Z.of_nat (List.length ds1))
      with (i + Z.pos (Pos.of_succ_nat (List.length ds1))) by lia.
    reflexivity.
Qed.

Lemma iteration_journal s e w :
  exists e',
    iteration s e w = Some (e', apres w (journal s (tentatives e + 1) [milieu e])) /\
    tentatives e' = tentatives e + 1 /\
    (milieu e = s -> trouve e' = true) /\
    (milieu e <> s -> trouve e' = trouve e).
Proof.
  unfold journal, verdict.
  destruct (Z.lt_trichotomy (milieu e) s) as [H | [H | H]].
  - eexists. split; [rewrite (iteration_petit s e w H)|].
    + apply Z.ltb_lt in H. rewrite H. reflexivity.
    + simpl. split; [reflexivity|].
      split; [intros E; exfalso; lia | intros _; reflexivity].
  - eexists. split; [rewrite (iteration_trouve s e w H)|].
    + rewrite H, Z.ltb_irrefl, Z.gtb_ltb, Z.ltb_irrefl. reflexivity.
    + simpl. split; [reflexivity|].
      split; [intros _; reflexivity | intros E; exfalso; exact (E H)].
  - eexists. split; [rewrite (iteration_grand s e w) by lia|].
    + assert (H1 : (milieu e <? s) = false) by (apply Z.ltb_ge; lia).
      assert (H2 : (milieu e >? s) = true) by (apply Z.gtb_lt; lia).
      rewrite H1, H2. reflexivity.
    + simpl. split; [reflexivity|].
      split; [intros E; exfalso; lia | intros _; reflexivity].
Qed.

Lemma recherche_journal fuel s g w :
  (5 <= fuel)%nat ->
  exists e ds,
    recherche fuel s g w = Some (e, apres w (journal s 1 ds)) /\
    Z.of_nat (List.length ds) = tentatives e /\
    parties_gagnees e = g + (if trouve e then 1 else 0) /\
    (trouve e = true -> last ds 0 = s) /\
    (trouve e = false -> ~ In s ds).
Proof.
  intros Hfuel.
  destruct (recherche_termine fuel s g w Hfuel)
    as (e0 & l0 & Hrun0 & _ & _ & _ & Hg0 & _).
  pose (I := fun (e : Etat) (w' : World) =>
    exists ds, w' = apres w (journal s 1 ds) /\
      Z.of_nat (List.length ds) = tentatives e /\
      (trouve e = true -> last ds 0 = s) /\
      (trouve e = false -> ~ In s ds)).
  destruct (while_rule continuer (iteration s) (fun e w' => I e w' /\ tentatives e <= 5)
              (fun e => Z.to_nat (5 - tentatives e))) with
    (fuel := fuel) (s := etat_initial g) (w := w)
    as (e & w' & Hrun & ((ds & Hw & Hlen & Hlast & Hnot) & _) & _).
  - intros e w1 ((ds & Hw & Hlen & Hlast & Hnot) & Ht) Hc.
    destruct (continuer_true _ Hc) as [Hf Hlt].
    destruct (iteration_journal s e w1) as (e' & Hit & Ht' & Hyes & Hno).
    eexists; eexists. split; [exact Hit|]. split; [|lia]. split; [|lia].
    exists (ds ++ [milieu e])%list. subst w1.
    rewrite apres_apres, journal_app, Hlen.
    split; [rewrite (Z.add_comm 1); reflexivity|].
    rewrite length_app, last_last. simpl List.length. split; [lia|].
    split.
    + intros Hf'. destruct (Z.eq_dec (milieu e) s) as [E | E]; [assumption|].
      rewrite (Hno E), Hf in Hf'. discriminate.
    + intros Hf' Hin. apply in_app_or in Hin. destruct Hin as [Hin | [Hin | []]].
      * exact (Hnot Hf Hin).
      * rewrite (Hyes Hin) in Hf'. discriminate.
  - split; [|simpl; lia]. exists []. unfold apres; simpl. rewrite app_nil_r.
    destruct w; simpl. repeat split; try discriminate. intros _ [].
  - simpl. lia.
  - unfold recherche in Hrun0. rewrite Hrun in Hrun0.
    inversion Hrun0; subst e0. exists e, ds. unfold recherche.
    rewrite Hrun, Hw. auto.
Qed.

Lemma partie_body_journal fuel partie t g w :
  (5 <= fuel)%nat ->
  exists e ds,
    partie_body fuel partie (t, g) w =
      Some ((t + tentatives e, parties_gagnees e),
            avance w 1 (entete_partie partie (demo_secret w)
                        ++ journal (demo_secret w) 1 ds
                        ++ [bilan e (demo_secret w)])) /\
    Z.of_nat (List.length ds) = tentatives e /\
    parties_gagnees e = g + (if trouve e then 1 else 0) /\
    (trouve e = true -> last ds 0 = demo_secret w) /\
    (trouve e = false -> ~ In (demo_secret w) ds).
Proof.
  intros Hfuel. unfold partie_body, demo_secret.
  unfold bind at 1. unfold print at 1, print_end at 1.
  unfold bind at 1. unfold randint at 1. cbn [rng rng_pos stdout].
  unfold bind at 1. unfold print at 1, print_end at 1. cbn [rng rng_pos stdout].
  set (s := rng w (rng_pos w) 1 10).
  unfold bind at 1.
  match goal with |- context [recherche fuel s g ?W] => set (w1 := W) end.
  destruct (recherche_journal fuel s g w1 Hfuel)
    as (e & ds & Hrun & Hlen & Hg & Hlast & Hnot).
  rewrite Hrun. exists e, ds. split; [|auto].
  unfold bilan, echec_msg, succes_msg, entete_partie.
  unfold bind, print, print_end, ret, avance, apres, w1.
  destruct (negb (trouve e)); cbn [rng rng_pos stdout];
    rewrite Nat.add_1_r, <- !app_assoc; reflexivity.
Qed.

(** X5: a round prints its two opening lines, then for each guess in order
    the line announcing it, numbered from 1, followed by the verdict on that
    guess, then one closing line.  The closing line reports the number of
    guesses printed; it is the success line exactly when the round is counted
    as won, which happens when the last guess is the secret, and the failure
    line when no guess was the secret. *)
Theorem round_output_shape fuel partie t g w :
  (5 <= fuel)%nat ->
  let s := rng w (rng_pos w) 1 10 in
  exists ds n k,
    partie_body fuel partie (t, g) w =
      Some ((t + n, g + k),
            mkWorld (rng w) (rng_pos w + 1)
              (stdout w ++ entete_partie partie s ++ journal s 1 ds
                 ++ [if k =? 1 then succes_msg n else echec_msg n s])) /\
    Z.of_nat (List.length ds) = n /\
    (k = 1 /\ last ds 0 = s \/ k = 0 /\ ~ In s ds).
Proof.
  intros Hfuel s.
  destruct (partie_body_journal fuel partie t g w Hfuel)
    as (e & ds & Hrun & Hlen & Hg & Hlast & Hnot).
  exists ds, (tentatives e), (if trouve e then 1 else 0).
  rewrite Hrun, Hg. fold (demo_secret w). unfold avance, bilan.
  destruct (trouve e); simpl negb; simpl Z.eqb; cbv iota.
  - split; [reflexivity|]. split; [assumption|]. left. auto.
  - split; [reflexivity|]. split; [assumption|]. right. auto.
Qed.

Lemma round_output_shape_witness :
  (5 <= 5)%nat /\
  exists ds n k,
    partie_body 5 1 (0, 0) (monde rng_sept) =
      Some ((0 + n, 0 + k),
            mkWorld rng_sept 1
              ([] ++ entete_partie 1 7 ++ journal 7 1 ds
                 ++ [if k =? 1 then succes_msg n else echec_msg n 7])) /\
    Z.of_nat (List.length ds) = n /\
    (k = 1 /\ last ds 0 = 7 \/ k = 0 /\ ~ In 7 ds).
Proof.
  split; [lia|].
  exact (round_output_shape 5 1 0 0 (monde rng_sept) (le_n 5)).
Defined.

(** ** Counting the lines of the simulation *)

Lemma compte_app p l1 l2 :
  compte p (l1 ++ l2) = (compte p l1 + compte p l2)%nat.
Proof. unfold compte. rewrite filter_app, length_app. reflexivity. Qed.

Lemma verdict_cas s d :
  est_annonce (verdict s d) = false /\ est_succes (verdict s d) = false /\
  est_echec (verdict s d) = false.
Proof.
  unfold verdict. destruct (d <? s); [|destruct (d >? s)];
    repeat split; reflexivity.
Qed.

Lemma compte_journal s i ds :
  compte est_annonce (journal s i ds) = List.length ds /\
  compte est_succes (journal s i ds) = 0%nat /\
  compte est_echec (journal s i ds) = 0%nat.
Proof.
  revert i. induction ds as [|d ds IH]; intros i; simpl journal.
  - repeat split; reflexivity.
  - destruct (IH (i + 1)) as (Ha & Hs & He).
    destruct (verdict_cas s d) as (Va & Vs & Ve).
    rewrite !compte_cons, Ha, Hs, He, Va, Vs, Ve.
    repeat split; reflexivity.
Qed.

Lemma compte_bilan e s :
  compte est_annonce [bilan e s] = 0%nat /\
  compte est_succes [bilan e s] = (if trouve e then 1 else 0)%nat /\
  compte est_echec [bilan e s] = (if trouve e then 0 else 1)%nat.
Proof. unfold bilan. destruct (trouve e); repeat split; reflexivity. Qed.

Lemma compte_entete_partie p partie s :
  (p = est_annonce \/ p = est_succes \/ p = est_echec) ->
  compte p (entete_partie partie s) = 0%nat.
Proof. intros [-> | [-> | ->]]; reflexivity. Qed.

Lemma parties_compte fuel w :
  (5 <= fuel)%nat ->
  exists t g l,
    parties fuel w = Some ((t, g), avance w 5 l) /\
    Z.of_nat (compte est_annonce l) = t /\
    Z.of_nat (compte est_succes l) = g /\
    (compte est_succes l + compte est_echec l = 5)%nat.
Proof.
  intros Hfuel. unfold parties.
  unfold bind at 1. unfold print at 1, print_end at 1.
  unfold bind at 1. unfold print at 1, print_end at 1. cbn [rng rng_pos stdout].
  match goal with |- context [for_ _ _ _ ?W] => set (w0 := W) end.
  pose (I := fun (n : nat) (acc : Z * Z) (w' : World) =>
    exists l, w' = avance w0 n l /\
      Z.of_nat (compte est_annonce l) = fst acc /\
      Z.of_nat (compte est_succes l) = snd acc /\
      (compte est_succes l + compte est_echec l = n)%nat).
  destruct (for_rule (partie_body fuel) I) with
    (xs := range 1 6) (n := 0%nat) (s := (0, 0)) (w := w0)
    as ([t g] & w' & Hrun & (l & Hw & Ht & Hg & Hn)).
  - intros n partie [t g] w1 (l & Hw & Ht & Hg & Hn). cbn [fst snd] in Ht, Hg.
    destruct (partie_body_journal fuel partie t g w1 Hfuel)
      as (e & ds & Hrun & Hlen & Hg' & _).
    eexists; eexists. split; [exact Hrun|].
    eexists. subst w1. rewrite avance_avance, Nat.add_1_r.
    split; [reflexivity|]. cbn [fst snd].
    set (s := demo_secret (avance w0 n l)).
    destruct (compte_journal s 1 ds) as (Ja & Js & Je).
    destruct (compte_bilan e s) as (Ba & Bs & Be).
    rewrite !compte_app, Ja, Js, Je, Ba, Bs, Be.
    rewrite !compte_entete_partie by auto.
    rewrite Hg'. destruct (trouve e); repeat split; lia.
  - exists []. rewrite avance_0. cbn [fst snd]. repeat split; reflexivity.
  - cbn [fst snd] in Ht, Hg.
    change (0 + List.length (range 1 6))%nat with 5%nat in *.
    exists t, g. eexists. rewrite Hrun, Hw. split.
    + unfold avance, w0. cbn [rng rng_pos stdout].
      rewrite <- !app_assoc. reflexivity.
    + cbn [app]. rewrite !compte_cons.
      change (est_annonce (_ ++ nl)%string) with false.
      simpl. split; [|split]; lia.
Qed.

(** X6: the report agrees with what the rounds have printed: the total of
    attempts is the number of attempt lines printed, the count of rounds won
    is the number of success lines, and every one of the five rounds has
    printed either a success line or a failure line. *)
Theorem report_counts_printed_lines fuel w :
  (5 <= fuel)%nat ->
  exists total gagnees l,
    parties fuel w =
      Some ((total, gagnees), mkWorld (rng w) (rng_pos w + 5) (stdout w ++ l)) /\
    devine_le_nombre_auto fuel w =
      Some (tt, mkWorld (rng w) (rng_pos w + 5)
                  (stdout w ++ l ++ rapport gagnees (taux_str gagnees)
                                      (moyenne_str total))) /\
    Z.of_nat (compte est_annonce l) = total /\
    Z.of_nat (compte est_succes l) = gagnees /\
    (compte est_succes l + compte est_echec l = 5)%nat.
Proof.
  intros Hfuel.
  destruct (parties_compte fuel w Hfuel) as (t & g & l & Hrun & Ht & Hg & Hn).
  exists t, g, l. split; [exact Hrun|]. split; [|auto].
  unfold devine_le_nombre_auto, bind. rewrite Hrun. cbn [fst snd].
  rewrite statistiques_sortie. unfold apres, avance. cbn [rng rng_pos stdout].
  rewrite <- app_assoc. reflexivity.
Qed.

Lemma report_counts_printed_lines_witness :
  (5 <= 5)%nat /\
  exists total gagnees l,
    parties 5 (monde rng_sept) = Some ((total, gagnees), mkWorld rng_sept 5 l) /\
    Z.of_nat (compte est_annonce l) = total /\
    Z.of_nat (compte est_succes l) = gagnees /\
    (compte est_succes l + compte est_echec l = 5)%nat.
Proof.
  split; [lia|].
  destruct (report_counts_printed_lines 5 (monde rng_sept) (le_n 5))
    as (t & g & l & Hp & _ & H).
  exists t, g, l. split; [exact Hp | exact H].
Defined.

(** ** Only the first nine draws matter *)

Lemma local_eq {A : Type} k k' (m : M A) : local_ k m -> k = k' -> local_ k' m.
Proof. intros H <-. exact H. Qed.

Lemma local_ret {A : Type} (a : A) : local_ 0 (ret a).
Proof. intros n w1 w2 H Hk. simpl. split; [reflexivity|]. split; [assumption | lia]. Qed.

Lemma local_diverge {A : Type} : local_ 0 (@diverge A).
Proof. intros n w1 w2 H Hk. exact I. Qed.

Lemma local_bind {A B : Type} k1 k2 (m : M A) (f : A -> M B) :
  local_ k1 m -> (forall a, local_ k2 (f a)) -> local_ (k1 + k2) (bind m f).
Proof.
  intros Hm Hf n w1 w2 H Hk. unfold bind.
  assert (Hk1 : (rng_pos w1 + k1 <= n)%nat) by lia.
  specialize (Hm n w1 w2 H Hk1).
  destruct (m w1) as [[a1 w1']|], (m w2) as [[a2 w2']|]; simpl in Hm;
    try contradiction; [|exact I].
  destruct Hm as (<- & Hw & Hp).
  assert (Hk2 : (rng_pos w1' + k2 <= n)%nat) by lia.
  specialize (Hf a1 n w1' w2' Hw Hk2).
  destruct (f a1 w1') as [[b1 w1'']|], (f a1 w2') as [[b2 w2'']|]; simpl in *;
    try contradiction; [|exact I].
  destruct Hf as (Hb & Hw' & Hp'). split; [assumption|]. split; [assumption | lia].
Qed.

Lemma local_print_end s e : local_ 0 (print_end s e).
Proof.
  intros n w1 w2 (Hp & Ho & Hr) Hk. simpl. split; [reflexivity|].
  split; [|lia]. unfold semblables_jusque; simpl. rewrite Ho. auto.
Qed.

Lemma local_print s : local_ 0 (print s).
Proof. apply local_print_end. Qed.

Lemma local_randint : local_ 1 (randint 1 10).
Proof.
  intros n w1 w2 (Hp & Ho & Hr) Hk. simpl.
  split; [rewrite <- Hp; apply Hr; lia|].
  split; [|lia]. unfold semblables_jusque; simpl. auto.
Qed.

Lemma local_if {A : Type} k (c : bool) (m1 m2 : M A) :
  local_ k m1 -> local_ k m2 -> local_ k (if c then m1 else m2).
Proof. destruct c; auto. Qed.

Lemma local_while {S : Type} (cond : S -> bool) (body : S -> M S) :
  (forall s, local_ 0 (body s)) -> forall fuel s, local_ 0 (while_ fuel cond body s).
Proof.
  intros Hb fuel. induction fuel as [|fuel IH]; intros s; simpl;
    destruct (cond s); try apply local_ret; [apply local_diverge|].
  apply (local_bind 0 0); auto.
Qed.

Lemma local_for {A S : Type} k (body : A -> S -> M S) :
  (forall x s, local_ k (body x s)) ->
  forall xs s, local_ (List.length xs * k) (for_ xs body s).
Proof.
  intros Hb xs. induction xs as [|x xs IH]; intros s; simpl;
    [apply local_ret | apply local_bind; auto].
Qed.

Lemma local_for_else {A : Type} (body : A -> M bool) (orelse : M unit) :
  (forall x, local_ 0 (body x)) -> local_ 0 orelse ->
  forall xs, local_ 0 (for_else xs body orelse).
Proof.
  intros Hb Ho xs. induction xs as [|x xs IH]; simpl; [assumption|].
  apply (local_bind 0 0); [apply Hb|].
  intros stop. apply local_if; [apply local_ret | assumption].
Qed.

Lemma local_list_comp {A : Type} k (m : M A) n :
  local_ k m -> local_ (n * k) (list_comp n m).
Proof.
  intros Hm. induction n as [|n IH]; simpl; [apply local_ret|].
  eapply local_eq; [apply local_bind; [exact Hm|]; intros x;
    apply local_bind; [exact IH|]; intros xs; apply local_ret | lia].
Qed.

Ltac local_pas :=
  first [ apply local_ret | apply local_print | apply local_print_end
        | apply local_randint | apply local_if
        | eapply local_bind; [|intro] ].

Lemma local_iteration s e : local_ 0 (iteration s e).
Proof.
  unfold iteration. eapply local_eq; [repeat local_pas | reflexivity].
Qed.

Lemma local_partie_body fuel partie acc : local_ 1 (partie_body fuel partie acc).
Proof.
  destruct acc as [t g]. unfold partie_body, recherche.
  eapply local_eq;
    [repeat first [ apply local_while; intro; apply local_iteration | local_pas ]
    | reflexivity].
Qed.

Lemma local_devine_le_nombre_auto fuel : local_ 5 (devine_le_nombre_auto fuel).
Proof.
  unfold devine_le_nombre_auto, parties, statistiques.
  eapply local_eq;
    [repeat first [ apply local_for; intros; apply local_partie_body | local_pas ]
    | reflexivity].
Qed.

Lemma local_demo_body s it : local_ 0 (demo_body s it).
Proof.
  destruct it as [i g]. unfold demo_body.
  eapply local_eq; [repeat local_pas | reflexivity].
Qed.

Lemma local_jeu_demo_simple : local_ 4 jeu_demo_simple.
Proof.
  unfold jeu_demo_simple, reveal.
  eapply local_eq;
    [repeat first [ apply local_for_else; [intro; apply local_demo_body|]
                  | apply local_list_comp; apply local_randint
                  | local_pas ]
    | reflexivity].
Qed.

Lemma local_main fuel : local_ 9 (main fuel).
Proof.
  unfold main.
  eapply local_eq;
    [repeat first [ apply local_devine_le_nombre_auto
                  | apply local_jeu_demo_simple | local_pas ]
    | reflexivity].
Qed.

(** X2: the console output of the script is decided by the first nine
    answers of the generator to [randint(1, 10)]: two runs whose generators
    agree on those nine answers, whatever they answer afterwards, both
    return, with the same output. *)
Theorem first_nine_draws_decide_output r1 r2 fuel :
  (5 <= fuel)%nat ->
  (forall i, (i < 9)%nat -> r1 i 1 10 = r2 i 1 10) ->
  exists out,
    sortie (main fuel) r1 = Some out /\ sortie (main fuel) r2 = Some out.
Proof.
  intros Hfuel Hr.
  destruct (main_termine fuel (monde r1) Hfuel) as (l1 & H1).
  destruct (main_termine fuel (monde r2) Hfuel) as (l2 & H2).
  assert (Hs : semblables_jusque 9 (monde r1) (monde r2)).
  { unfold semblables_jusque, monde; simpl. auto. }
  pose proof (local_main fuel 9%nat _ _ Hs (le_n 9)) as Hd.
  rewrite H1, H2 in Hd. destruct Hd as (_ & (_ & Ho & _) & _).
  unfold sortie. rewrite H1, H2. rewrite <- Ho. eexists. split; reflexivity.
Qed.

Lemma first_nine_draws_decide_output_witness :
  (5 <= 5)%nat /\
  (forall i, (i < 9)%nat -> rng_sept i 1 10 = rng_sept_puis_un i 1 10) /\
  rng_sept 9%nat 1 10 <> rng_sept_puis_un 9%nat 1 10 /\
  exists out,
    sortie (main 5) rng_sept = Some out /\
    sortie (main 5) rng_sept_puis_un = Some out.
Proof.
  assert (H : forall i, (i < 9)%nat -> rng_sept i 1 10 = rng_sept_puis_un i 1 10).
  { intros i Hi. unfold rng_sept, rng_sept_puis_un.
    apply Nat.ltb_lt in Hi. rewrite Hi. reflexivity. }
  split; [lia|]. split; [exact H|]. split; [discriminate|].
  exact (first_nine_draws_decide_output rng_sept rng_sept_puis_un 5 (le_n 5) H).
Defined.

(** X9: over the five rounds the total of attempts lies between 5 and 25,
    and between 5 and 20 when the generator honours the bounds of
    [randint(1, 10)]: the mean of the report is then at least 1 and at
    most 4. *)
Theorem total_attempts_bounds fuel w :
  (5 <= fuel)%nat ->
  exists total gagnees w',
    parties fuel w = Some ((total, gagnees), w') /\
    5 <= total <= 25 /\ 0 <= gagnees <= 5 /\
    (valid_rng (rng w) -> total <= 20).
Proof.
  intros Hfuel.
  destruct (parties_termine fuel w Hfuel) as (t & g & l & Hrun & Ht & Hg & Hv).
  exists t, g, (avance w 5 l). split; [assumption|].
  split; [assumption|]. split; [assumption|].
  intros H. destruct (Hv H) as (_ & Ht' & _). assumption.
Qed.

Lemma total_attempts_bounds_witness :
  (5 <= 5)%nat /\
  exists total gagnees w',
    parties 5 (monde rng_sept) = Some ((total, gagnees), w') /\
    5 <= total <= 25 /\ 0 <= gagnees <= 5 /\
    (valid_rng (rng (monde rng_sept)) -> total <= 20).
Proof.
  split; [lia|]. exact (total_attempts_bounds 5 (monde rng_sept) (le_n 5)).
Defined.

(** ** Rounds against a secret in range *)

Lemma recherche_gagne_journal fuel s g w :
  (5 <= fuel)%nat -> 1 <= s <= 10 ->
  exists e ds,
    recherche fuel s g w = Some (e, apres w (journal s 1 ds)) /\
    Z.of_nat (List.length ds) = tentatives e /\
    last ds 0 = s /\
    trouve e = true /\ 1 <= tentatives e <= 4 /\ parties_gagnees e = g + 1.
Proof.
  intros Hfuel Hs.
  destruct (recherche_journal fuel s g w Hfuel)
    as (e & ds & Hrun & Hlen & _ & Hlast & _).
  destruct (recherche_gagne fuel s g w Hfuel Hs)
    as (e' & l & Hrun' & _ & Hf & Ht & Hg).
  rewrite Hrun in Hrun'. inversion Hrun'; subst e'.
  exists e, ds. auto 10.
Qed.

Lemma partie_body_gagnee fuel partie t g w :
  (5 <= fuel)%nat -> valid_rng (rng w) ->
  exists ds,
    partie_body fuel partie (t, g) w =
      Some ((t + Z.of_nat (List.length ds), g + 1),
            avance w 1 (entete_partie partie (demo_secret w)
                        ++ journal (demo_secret w) 1 ds
                        ++ [succes_msg (Z.of_nat (List.length ds))])) /\
    last ds 0 = demo_secret w /\
    (1 <= List.length ds <= 4)%nat.
Proof.
  intros Hfuel Hv.
  destruct (partie_body_journal fuel partie t g w Hfuel)
    as (e & ds & Hrun & Hlen & Hg & Hlast & _).
  destruct (partie_body_termine fuel partie t g w Hfuel)
    as (n & k & l & Hrun' & _ & _ & Hv').
  destruct (Hv' Hv) as (-> & Hn & _).
  rewrite Hrun in Hrun'. inversion Hrun' as [[Hn' Hk' Hl']].
  assert (Hf : trouve e = true) by (destruct (trouve e); [reflexivity | lia]).
  exists ds. rewrite Hrun. unfold bilan. rewrite Hf, Hlen, Hg, Hf. simpl negb.
  split; [reflexivity|]. split; [auto|].
  assert (1 <= tentatives e <= 4); [|lia].
  assert (Hs : 1 <= demo_secret w <= 10)
    by (apply randint_valide; [assumption | lia]).
  assert (n = tentatives e) by lia. subst n. split; [|assumption].
  destruct ds as [|d ds']; [|simpl in Hlen; lia].
  simpl in Hlast. specialize (Hlast Hf). lia.
Qed.

(** C1: with a generator that honours the bounds of [randint(1, 10)], the
    search of every round reaches the secret: the guesses it prints, numbered
    from 1, end with the secret itself, there are between one and five of
    them, the round is marked found and closes on the success line, and the
    output of the simulation holds no failure message. *)
Theorem rounds_always_found r fuel :
  valid_rng r -> (5 <= fuel)%nat ->
  (forall w g, rng w = r ->
     exists s w1, randint 1 10 w = Some (s, w1) /\
       forall w', exists e ds,
         recherche fuel s g w' = Some (e, apres w' (journal s 1 ds)) /\
         Z.of_nat (List.length ds) = tentatives e /\
         last ds 0 = s /\
         trouve e = true /\ 1 <= tentatives e <= 5) /\
  (forall w partie t g, rng w = r ->
     let s := rng w (rng_pos w) 1 10 in
     exists ds,
       partie_body fuel partie (t, g) w =
         Some ((t + Z.of_nat (List.length ds), g + 1),
               mkWorld (rng w) (rng_pos w + 1)
                 (stdout w ++ entete_partie partie s ++ journal s 1 ds
                    ++ [succes_msg (Z.of_nat (List.length ds))])) /\
       last ds 0 = s /\ (1 <= List.length ds <= 5)%nat) /\
  exists out, sortie (devine_le_nombre_auto fuel) r = Some out /\
              Forall (fun c => est_echec c = false) out.
Proof.
  intros Hr Hfuel. split; [|split].
  - intros w g Hw. eexists; eexists. split; [reflexivity|]. intros w'.
    assert (Hs : 1 <= rng w (rng_pos w) 1 10 <= 10).
    { apply randint_valide; [rewrite Hw; assumption | lia]. }
    destruct (recherche_gagne_journal fuel _ g w' Hfuel Hs)
      as (e & ds & Hrun & Hlen & Hlast & Hf & Ht & _).
    exists e, ds. repeat split; try assumption; lia.
  - intros w partie t g Hw s. rewrite <- Hw in Hr.
    destruct (partie_body_gagnee fuel partie t g w Hfuel Hr)
      as (ds & Hrun & Hlast & Hlen).
    exists ds. split; [exact Hrun|]. split; [exact Hlast | lia].
  - destruct (devine_le_nombre_auto_termine fuel (monde r) Hfuel)
      as (t & g & l & _ & Hrun & _ & _ & Hv).
    unfold sortie. rewrite Hrun. eexists. split; [reflexivity|].
    destruct (Hv Hr) as (_ & _ & Hl). simpl.
    apply sans_echec_app; [assumption | apply rapport_sans_echec].
Qed.

Lemma rounds_always_found_witness :
  valid_rng rng_min /\ (5 <= 5)%nat /\
  (exists ds,
     partie_body 5 1 (0, 0) (monde rng_min) =
       Some ((0 + Z.of_nat (List.length ds), 0 + 1),
             mkWorld rng_min 1
               ([] ++ entete_partie 1 1 ++ journal 1 1 ds
                  ++ [succes_msg (Z.of_nat (List.length ds))])) /\
     last ds 0 = 1 /\ (1 <= List.length ds <= 5)%nat) /\
  exists out, sortie (devine_le_nombre_auto 5) rng_min = Some out /\
              Forall (fun c => est_echec c = false) out.
Proof.
  split; [exact rng_min_valide|]. split; [lia|].
  destruct (rounds_always_found rng_min 5 rng_min_valide (le_n 5))
    as (_ & Hround & Hout).
  split; [exact (Hround (monde rng_min) 1 0 0 eq_refl) | exact Hout].
Defined.

(** C10: with a generator that honours the bounds of [randint(1, 10)], every
    round finds its secret within four attempts: the guesses it prints end
    with the secret, there are at most four of them, so the cap of five
    attempts never ends the loop, and the round is counted as won.  The
    five rounds are all won and the win rate line of the report reads
    100.0%. *)
Theorem all_rounds_won r fuel :
  valid_rng r -> (5 <= fuel)%nat ->
  (forall w g, rng w = r ->
     exists s w1, randint 1 10 w = Some (s, w1) /\
       forall w', exists e ds,
         recherche fuel s g w' = Some (e, apres w' (journal s 1 ds)) /\
         Z.of_nat (List.length ds) = tentatives e /\
         last ds 0 = s /\
         trouve e = true /\ 1 <= tentatives e <= 4 /\
         parties_gagnees e = g + 1) /\
  (forall w partie t g, rng w = r ->
     let s := rng w (rng_pos w) 1 10 in
     exists ds,
       partie_body fuel partie (t, g) w =
         Some ((t + Z.of_nat (List.length ds), g + 1),
               mkWorld (rng w) (rng_pos w + 1)
                 (stdout w ++ entete_partie partie s ++ journal s 1 ds
                    ++ [succes_msg (Z.of_nat (List.length ds))])) /\
       last ds 0 = s /\ (1 <= List.length ds <= 4)%nat) /\
  exists total l,
    parties fuel (monde r) = Some ((total, 5), avance (monde r) 5 l) /\
    sortie (devine_le_nombre_auto fuel) r =
      Some (l ++ rapport 5 "100.0" (moyenne_str total))%list /\
    ligne_taux "100.0" = "Taux de réussite: 100.0%" ++ nl.
Proof.
  intros Hr Hfuel. split; [|split].
  - intros w g Hw. eexists; eexists. split; [reflexivity|]. intros w'.
    assert (Hs : 1 <= rng w (rng_pos w) 1 10 <= 10).
    { apply randint_valide; [rewrite Hw; assumption | lia]. }
    destruct (recherche_gagne_journal fuel _ g w' Hfuel Hs)
      as (e & ds & Hrun & Hlen & Hlast & Hf & Ht & Hg).
    exists e, ds. auto 10.
  - intros w partie t g Hw s. rewrite <- Hw in Hr.
    exact (partie_body_gagnee fuel partie t g w Hfuel Hr).
  - destruct (devine_le_nombre_auto_termine fuel (monde r) Hfuel)
      as (t & g & l & Hp & Hrun & _ & _ & Hv).
    destruct (Hv Hr) as (-> & _ & _).
    exists t, l. split; [assumption|]. split; [|reflexivity].
    unfold sortie. rewrite Hrun. reflexivity.
Qed.

Lemma all_rounds_won_witness :
  valid_rng rng_sept /\ (5 <= 5)%nat /\
  (exists ds,
     partie_body 5 1 (0, 0) (monde rng_sept) =
       Some ((0 + Z.of_nat (List.length ds), 0 + 1),
             mkWorld rng_sept 1
               ([] ++ entete_partie 1 7 ++ journal 7 1 ds
                  ++ [succes_msg (Z.of_nat (List.length ds))])) /\
     last ds 0 = 7 /\ (1 <= List.length ds <= 4)%nat) /\
  exists total l,
    parties 5 (monde rng_sept) = Some ((total, 5), avance (monde rng_sept) 5 l) /\
    sortie (devine_le_nombre_auto 5) rng_sept =
      Some (l ++ rapport 5 "100.0" (moyenne_str total))%list /\
    ligne_taux "100.0" = "Taux de réussite: 100.0%" ++ nl.
Proof.
  split; [exact rng_sept_valide|]. split; [lia|].
  destruct (all_rounds_won rng_sept 5 rng_sept_valide (le_n 5))
    as (_ & Hround & Hout).
  split; [exact (Hround (monde rng_sept) 1 0 0 eq_refl) | exact Hout].
Defined.
